(** * A media gallery over the filesystem: [server.js]

    Shallow embedding of the upload / listing / deletion handlers of
    [server.js] (an Express application storing uploads in the directory
    [anhkiniem] next to the script), together with the library functions
    they call: [String.prototype.split], [Array.prototype.join],
    [String.prototype.replace] with [/\s+/g], [path.extname], [path.join],
    the synchronous [fs] calls and the parts of multer's single-file upload
    that decide the response. *)

From Stdlib Require Import List ZArith NArith Lia Bool String Ascii.
From Stdlib Require Import Permutation Sorted.
From Stdlib Require Decimal DecimalN.
Import ListNotations.

Local Open Scope Z_scope.

(** ** JavaScript strings

    A JavaScript string is a sequence of UTF-16 code units; [split],
    [replace] without the [u] flag and [path.extname] all work on code
    units. *)

Definition jsstring := list N.

(** An ASCII literal of the source, as code units. *)
Fixpoint lit (s : string) : jsstring :=
  match s with
  | EmptyString => []
  | String c s' => N_of_ascii c :: lit s'
  end.

Fixpoint str_eqb (a b : jsstring) : bool :=
  match a, b with
  | [], [] => true
  | x :: a', y :: b' => N.eqb x y && str_eqb a' b'
  | _, _ => false
  end.

(** [Array.prototype.includes] on an array of strings. *)
Definition includes (l : list jsstring) (s : jsstring) : bool :=
  existsb (str_eqb s) l.

Definition CHAR_HYPHEN : N := 45%N.
Definition CHAR_DOT : N := 46%N.
Definition CHAR_FORWARD_SLASH : N := 47%N.
Definition CHAR_UNDERSCORE : N := 95%N.

(** [s.split(sep)] for a separator of one code unit: never empty, and
    [''.split(sep)] is [['']]. *)
Fixpoint split (sep : N) (s : jsstring) : list jsstring :=
  match s with
  | [] => [[]]
  | c :: s' =>
      if N.eqb c sep then [] :: split sep s'
      else match split sep s' with
           | [] => [[c]]
           | h :: t => (c :: h) :: t
           end
  end.

(** [a.join(sep)]. *)
Fixpoint join (sep : jsstring) (l : list jsstring) : jsstring :=
  match l with
  | [] => []
  | x :: l' =>
      match l' with
      | [] => x
      | _ :: _ => x ++ sep ++ join sep l'
      end
  end.

(** [a.slice(n)]. *)
Definition slice_from {A : Type} (n : nat) (l : list A) : list A := skipn n l.

(** The class [\s] of an ECMAScript regular expression: WhiteSpace and
    LineTerminator code points. *)
Definition is_space (c : N) : bool :=
  ((9 <=? c) && (c <=? 13) || (c =? 32) || (c =? 160) || (c =? 5760)
   || (8192 <=? c) && (c <=? 8202) || (c =? 8232) || (c =? 8233)
   || (c =? 8239) || (c =? 8287) || (c =? 12288) || (c =? 65279))%N.

(** [s.replace(/\s+/g, '_')]: every maximal run of white space becomes one
    underscore.  [in_run] tells that the previous code unit was white
    space. *)
Fixpoint replace_ws_from (in_run : bool) (s : jsstring) : jsstring :=
  match s with
  | [] => []
  | c :: s' =>
      if is_space c then
        if in_run then replace_ws_from true s'
        else CHAR_UNDERSCORE :: replace_ws_from true s'
      else c :: replace_ws_from false s'
  end.

Definition replace_ws (s : jsstring) : jsstring := replace_ws_from false s.

(** Decimal digits of a natural number, most significant first. *)
Fixpoint digits_of_uint (u : Decimal.uint) : jsstring :=
  match u with
  | Decimal.Nil => []
  | Decimal.D0 u' => 48%N :: digits_of_uint u'
  | Decimal.D1 u' => 49%N :: digits_of_uint u'
  | Decimal.D2 u' => 50%N :: digits_of_uint u'
  | Decimal.D3 u' => 51%N :: digits_of_uint u'
  | Decimal.D4 u' => 52%N :: digits_of_uint u'
  | Decimal.D5 u' => 53%N :: digits_of_uint u'
  | Decimal.D6 u' => 54%N :: digits_of_uint u'
  | Decimal.D7 u' => 55%N :: digits_of_uint u'
  | Decimal.D8 u' => 56%N :: digits_of_uint u'
  | Decimal.D9 u' => 57%N :: digits_of_uint u'
  end.

(** String conversion of an integral Number, as [n + '-'] performs it.
    Exact below 10^21, where JavaScript still prints every digit;
    [Date.now()] stays below 8.64e15 and the random part below 1e9 + 1. *)
Definition Number_toString (n : Z) : jsstring :=
  if n <? 0 then CHAR_HYPHEN :: digits_of_uint (N.to_uint (Z.abs_N n))
  else digits_of_uint (N.to_uint (Z.to_N n)).

(** ** Filename generator (multer [diskStorage.filename])

    [now] is the value of [Date.now()], [rnd] the value of
    [Math.round(Math.random() * 1E9)]. *)

Definition uniqueSuffix (now rnd : Z) : jsstring :=
  Number_toString now ++ lit "-" ++ Number_toString rnd.

Definition storage_filename (now rnd : Z) (originalname : jsstring) : jsstring :=
  let originalName := replace_ws originalname in
  uniqueSuffix now rnd ++ lit "-" ++ originalName.

(** ** [path.extname] (POSIX flavour of Node's [path] module)

    The loop runs over the code units from the last to the first and stops
    at the first separator that ends the last path component. *)

Record ext_state := mk_ext_state {
  startDot : Z;
  startPart : Z;
  end_ : Z;
  matchedSlash : bool;
  preDotState : Z;
  stopped : bool
}.

Definition ext_init : ext_state := mk_ext_state (-1) 0 (-1) true 0 false.

Definition ext_step (st : ext_state) (ic : Z * N) : ext_state :=
  let (i, code) := ic in
  if stopped st then st
  else if N.eqb code CHAR_FORWARD_SLASH then
    if negb (matchedSlash st) then
      mk_ext_state (startDot st) (i + 1) (end_ st) (matchedSlash st)
                   (preDotState st) true
    else st
  else
    let st1 :=
      if end_ st =? -1 then
        mk_ext_state (startDot st) (startPart st) (i + 1) false
                     (preDotState st) false
      else st in
    if N.eqb code CHAR_DOT then
      if startDot st1 =? -1 then
        mk_ext_state i (startPart st1) (end_ st1) (matchedSlash st1)
                     (preDotState st1) false
      else if negb (preDotState st1 =? 1) then
        mk_ext_state (startDot st1) (startPart st1) (end_ st1)
                     (matchedSlash st1) 1 false
      else st1
    else if negb (startDot st1 =? -1) then
      mk_ext_state (startDot st1) (startPart st1) (end_ st1)
                   (matchedSlash st1) (-1) false
    else st1.

Definition indexed (s : jsstring) : list (Z * N) :=
  combine (map Z.of_nat (seq 0 (List.length s))) s.

Definition path_extname (p : jsstring) : jsstring :=
  let st := fold_left ext_step (rev (indexed p)) ext_init in
  if (startDot st =? -1) || (end_ st =? -1) || (preDotState st =? 0)
     || ((preDotState st =? 1) && (startDot st =? end_ st - 1)
         && (startDot st =? startPart st + 1))
  then []
  else firstn (Z.to_nat (end_ st - startDot st)) (skipn (Z.to_nat (startDot st)) p).

(** [s.substring(1)]. *)
Definition substring1 (s : jsstring) : jsstring := skipn 1 s.

(** ** String literals of the source outside ASCII, as code units *)

(** ['Kỷ niệm '] *)
Definition TITLE_PREFIX : jsstring :=
  [75; 7927; 32; 110; 105; 7879; 109; 32]%N.

(** ['Chỉ chấp nhận file ảnh và video!'] *)
Definition MSG_ONLY_MEDIA : jsstring :=
  [67; 104; 7881; 32; 99; 104; 7845; 112; 32; 110; 104; 7853; 110; 32;
   102; 105; 108; 101; 32; 7843; 110; 104; 32; 118; 224; 32; 118; 105;
   100; 101; 111; 33]%N.

(** ['Không thể đọc danh sách kỷ niệm'] *)
Definition MSG_LIST_FAILED : jsstring :=
  [75; 104; 244; 110; 103; 32; 116; 104; 7875; 32; 273; 7885; 99; 32;
   100; 97; 110; 104; 32; 115; 225; 99; 104; 32; 107; 7927; 32; 110;
   105; 7879; 109]%N.

(** ['Không có file được chọn'] *)
Definition MSG_NO_FILE : jsstring :=
  [75; 104; 244; 110; 103; 32; 99; 243; 32; 102; 105; 108; 101; 32;
   273; 432; 7907; 99; 32; 99; 104; 7885; 110]%N.

(** ['Tải lên thành công!'] *)
Definition MSG_UPLOADED : jsstring :=
  [84; 7843; 105; 32; 108; 234; 110; 32; 116; 104; 224; 110; 104; 32;
   99; 244; 110; 103; 33]%N.

(** ['File không tồn tại'] *)
Definition MSG_NOT_FOUND : jsstring :=
  [70; 105; 108; 101; 32; 107; 104; 244; 110; 103; 32; 116; 7891; 110;
   32; 116; 7841; 105]%N.

(** ['Đã xóa file thành công'] *)
Definition MSG_DELETED : jsstring :=
  [272; 227; 32; 120; 243; 97; 32; 102; 105; 108; 101; 32; 116; 104;
   224; 110; 104; 32; 99; 244; 110; 103]%N.

(** ['Không thể xóa file'] *)
Definition MSG_DELETE_FAILED : jsstring :=
  [75; 104; 244; 110; 103; 32; 116; 104; 7875; 32; 120; 243; 97; 32;
   102; 105; 108; 101]%N.

(** ['File quá lớn. Kích thước tối đa là 20MB.'] *)
Definition MSG_TOO_LARGE : jsstring :=
  [70; 105; 108; 101; 32; 113; 117; 225; 32; 108; 7899; 110; 46; 32;
   75; 237; 99; 104; 32; 116; 104; 432; 7899; 99; 32; 116; 7889; 105;
   32; 273; 97; 32; 108; 224; 32; 50; 48; 77; 66; 46]%N.

(** ['Trường không mong đợi'] *)
Definition MSG_UNEXPECTED_FIELD : jsstring :=
  [84; 114; 432; 7901; 110; 103; 32; 107; 104; 244; 110; 103; 32; 109;
   111; 110; 103; 32; 273; 7907; 105]%N.

(** ** Paths and the filesystem

    An absolute path is the list of its segments below the root.  A path
    string handed to [fs] is such a list together with the information
    whether the string ended in a separator (the kernel then insists on a
    directory). *)

Definition path := list jsstring.

Fixpoint path_eqb (p q : path) : bool :=
  match p, q with
  | [], [] => true
  | a :: p', b :: q' => str_eqb a b && path_eqb p' q'
  | _, _ => false
  end.

(** One segment of [normalizeString] for an absolute path; [stack] holds
    the segments kept so far, innermost first.  Above the root, ['..'] is
    dropped. *)
Definition normalize_step (stack : list jsstring) (seg : jsstring) : list jsstring :=
  if str_eqb seg [] || str_eqb seg (lit ".") then stack
  else if str_eqb seg (lit "..") then tl stack
  else seg :: stack.

Definition normalize (segs : list jsstring) : path :=
  List.rev (fold_left normalize_step segs []).

Definition ends_with_slash (s : jsstring) : bool :=
  match List.rev s with
  | c :: _ => N.eqb c CHAR_FORWARD_SLASH
  | [] => false
  end.

(** [path.join(base, ...args)] for an absolute [base]: the non-empty
    arguments are glued with ['/'] and the result is normalised; a trailing
    separator of the glued string is kept. *)
Definition path_join (base : path) (args : list jsstring) : path * bool :=
  let joined := join (lit "/") (filter (fun a => negb (str_eqb a [])) args) in
  (normalize (base ++ split CHAR_FORWARD_SLASH joined), ends_with_slash joined).

Module Stats.
Record t := mk { size : N; birthtime : Z }.
End Stats.

(** What a path names: a regular file, a directory, or a symbolic link
    whose target is missing (listed by [readdir], but [stat] fails on it). *)
Inductive node : Type :=
| File (st : Stats.t)
| Dir (st : Stats.t)
| Dangling.

(** The filesystem, in the order in which the system enumerates entries. *)
Definition filesystem := list (path * node).

Definition fs_find (fs : filesystem) (p : path) : option node :=
  match find (fun e => path_eqb (fst e) p) fs with
  | Some e => Some (snd e)
  | None => None
  end.

Definition fs_remove (fs : filesystem) (p : path) : filesystem :=
  filter (fun e => negb (path_eqb (fst e) p)) fs.

(** [fs.existsSync]: [true] when [stat] on the path succeeds. *)
Definition existsSync (fs : filesystem) (fp : path * bool) : bool :=
  match fs_find fs (fst fp) with
  | Some (File _) => negb (snd fp)
  | Some (Dir _) => true
  | Some Dangling => false
  | None => false
  end.

(** [fs.statSync]; [None] when it throws. *)
Definition statSync (fs : filesystem) (fp : path * bool) : option Stats.t :=
  match fs_find fs (fst fp) with
  | Some (File st) => if snd fp then None else Some st
  | Some (Dir st) => Some st
  | Some Dangling => None
  | None => None
  end.

(** [fs.unlinkSync]; [None] when it throws (missing entry, directory). *)
Definition unlinkSync (fs : filesystem) (fp : path * bool) : option filesystem :=
  match fs_find fs (fst fp) with
  | Some (File _) | Some Dangling =>
      if snd fp then None else Some (fs_remove fs (fst fp))
  | Some (Dir _) => None
  | None => None
  end.

(** The name under which [q] is an entry of the directory [p], if it is. *)
Fixpoint child_name (p q : path) : option jsstring :=
  match p, q with
  | [], [name] => Some name
  | a :: p', b :: q' => if str_eqb a b then child_name p' q' else None
  | _, _ => None
  end.

Definition children (fs : filesystem) (p : path) : list jsstring :=
  flat_map (fun e => match child_name p (fst e) with
                     | Some name => [name]
                     | None => []
                     end) fs.

(** [fs.readdirSync]; [None] when it throws (not a directory). *)
Definition readdirSync (fs : filesystem) (p : path) : option (list jsstring) :=
  match fs_find fs p with
  | Some (Dir _) => Some (children fs p)
  | _ => None
  end.

(** [fs.mkdirSync(p, { recursive: true })]: every missing prefix of [p]
    becomes a directory; [None] when a prefix exists and is no directory. *)
Fixpoint mkdir_from (dstats : Stats.t) (fs : filesystem) (done rest : path)
  : option filesystem :=
  match rest with
  | [] => Some fs
  | seg :: rest' =>
      let p := done ++ [seg] in
      match fs_find fs p with
      | Some (Dir _) => mkdir_from dstats fs p rest'
      | Some _ => None
      | None => mkdir_from dstats (fs ++ [(p, Dir dstats)]) p rest'
      end
  end.

Definition mkdirSync_recursive (dstats : Stats.t) (fs : filesystem) (p : path)
  : option filesystem :=
  mkdir_from dstats fs [] p.

(** Writing a whole file of [size] bytes through [fs.createWriteStream];
    [None] when the stream reports an error.  An existing regular file is
    truncated and keeps its creation time. *)
Definition write_file (fs : filesystem) (fp : path * bool) (size : N) (btime : Z)
  : option filesystem :=
  if snd fp then None
  else
    match fs_find fs (removelast (fst fp)), fst fp with
    | Some (Dir _), _ :: _ =>
        match fs_find fs (fst fp) with
        | None => Some (fs ++ [(fst fp, File (Stats.mk size btime))])
        | Some (File st) =>
            Some (map (fun e => if path_eqb (fst e) (fst fp)
                                then (fst e, File (Stats.mk size (Stats.birthtime st)))
                                else e) fs)
        | Some _ => None
        end
    | _, _ => None
    end.

(** ** [Array.prototype.sort] with a comparator

    The sort is stable, so with a consistent comparator its result is the
    one stable ordering; insertion from the right computes it.  [x] goes
    behind [y] exactly when [cmp x y > 0]. *)

Section Sort.
Context {A : Type} (cmp : A -> A -> Z).

Fixpoint insert_by (x : A) (l : list A) : list A :=
  match l with
  | [] => [x]
  | y :: l' => if 0 <? cmp x y then y :: insert_by x l' else x :: l
  end.

Fixpoint sort_by (l : list A) : list A :=
  match l with
  | [] => []
  | x :: l' => insert_by x (sort_by l')
  end.
End Sort.

(** [a.filter(Boolean)] on an array of objects and [null]s. *)
Fixpoint filter_Boolean {A : Type} (l : list (option A)) : list A :=
  match l with
  | [] => []
  | Some x :: l' => x :: filter_Boolean l'
  | None :: l' => filter_Boolean l'
  end.

(** ** HTTP responses *)

Record memory := mk_memory {
  filename : jsstring;
  type : jsstring;
  title : jsstring;
  date : jsstring;
  size : N;
  created : Z
}.

Inductive body : Type :=
| Memories (items : list memory)
| Uploaded (stored : jsstring) (message : jsstring) (bytes : N)
| Success (message : jsstring)
| Failure (error : jsstring).

Record response := mk_response { status : Z; payload : body }.

(** [success] of the JSON body, where it has one. *)
Definition success (r : response) : option bool :=
  match payload r with
  | Memories _ => None
  | Uploaded _ _ _ | Success _ => Some true
  | Failure _ => Some false
  end.

(** Errors handed to the error middleware. *)
Inductive multer_code : Type := LIMIT_FILE_SIZE | LIMIT_UNEXPECTED_FILE.

Inductive error : Type :=
| MulterError (code : multer_code) (message : jsstring)
| Error (message : jsstring).

Definition error_message (e : error) : jsstring :=
  match e with
  | MulterError _ m => m
  | Error m => m
  end.

(** The error middleware ([app.use((error, req, res, next) => ...)]). *)
Definition error_middleware (e : error) : response :=
  match e with
  | MulterError LIMIT_FILE_SIZE _ => mk_response 400 (Failure MSG_TOO_LARGE)
  | MulterError LIMIT_UNEXPECTED_FILE _ => mk_response 400 (Failure MSG_UNEXPECTED_FIELD)
  | Error m => mk_response 500 (Failure m)
  end.

(** ** Upload filter and limits *)

Record file_part := mk_file_part {
  fieldname : jsstring;
  originalname : jsstring;
  mimetype : jsstring;
  bytes_sent : N
}.

Definition allowedImageTypes : list jsstring :=
  map lit ["image/jpeg"; "image/jpg"; "image/png"; "image/gif"; "image/webp"]%string.

Definition allowedVideoTypes : list jsstring :=
  map lit ["video/mp4"; "video/avi"; "video/mov"; "video/wmv"; "video/flv";
           "video/webm"]%string.

(** [fileFilter]: [None] is [cb(null, true)], [Some e] is [cb(e, false)]. *)
Definition fileFilter (file : file_part) : option error :=
  if includes allowedImageTypes (mimetype file)
     || includes allowedVideoTypes (mimetype file)
  then None
  else Some (Error MSG_ONLY_MEDIA).

(** [limits.fileSize]. *)
Definition fileSize : N := (20 * 1024 * 1024)%N.

(** ** The handlers *)

Definition ascii_lower (c : N) : N :=
  if ((65 <=? c) && (c <=? 90))%N then (c + 32)%N else c.

(** What [`${x}`] prints for a missing array element. *)
Definition undefined_text : jsstring := lit "undefined".

Definition imageExtensions : list jsstring :=
  map lit ["jpg"; "jpeg"; "png"; "gif"; "webp"; "bmp"; "svg"]%string.

Definition videoExtensions : list jsstring :=
  map lit ["mp4"; "avi"; "mov"; "wmv"; "flv"; "webm"; "mkv"]%string.

(** Values that the handlers read from their environment during one upload:
    [Date.now()], [Math.round(Math.random() * 1E9)], the creation time the
    filesystem gives the new file, the metadata of a directory it creates,
    and the message of the system error that the write stream reports when
    it cannot open the file. *)
Record upload_env := mk_upload_env {
  now : Z;
  rnd : Z;
  file_birthtime : Z;
  dir_stats : Stats.t;
  write_error : jsstring
}.

Section Server.

(** The runtime's case mapping on strings with code units outside ASCII,
    its [vi-VN] date formatting, and the directory of the script. *)
Variable unicode_toLowerCase : jsstring -> jsstring.
Variable toLocaleDateString : Z -> jsstring.
Variable dirname : path.

(** [String.prototype.toLowerCase]. *)
Definition toLowerCase (s : jsstring) : jsstring :=
  if forallb (fun c => (c <? 128)%N) s then map ascii_lower s
  else unicode_toLowerCase s.

(** [path.join(__dirname, 'anhkiniem')]. *)
Definition memoriesDir : path := fst (path_join dirname [lit "anhkiniem"]).

Definition classify (extension : jsstring) : jsstring :=
  if includes imageExtensions extension then lit "image"
  else if includes videoExtensions extension then lit "video"
  else lit "unknown".

(** [filename.split('-').slice(2).join('-').split('.')[0]]. *)
Definition recover_title (name : jsstring) : jsstring :=
  hd undefined_text
     (split CHAR_DOT
            (join (lit "-") (slice_from 2 (split CHAR_HYPHEN name)))).

(** The callback of [files.map]: [None] is the [null] of the [catch]. *)
Definition memory_of (fs : filesystem) (name : jsstring) : option memory :=
  let filePath := path_join memoriesDir [name] in
  match statSync fs filePath with
  | Some stats =>
      let extension := substring1 (toLowerCase (path_extname name)) in
      Some (mk_memory name
                      (classify extension)
                      (TITLE_PREFIX ++ recover_title name)
                      (toLocaleDateString (Stats.birthtime stats))
                      (Stats.size stats)
                      (Stats.birthtime stats))
  | None => None
  end.

(** [(a, b) => new Date(b.created) - new Date(a.created)]. *)
Definition by_created (a b : memory) : Z := created b - created a.

(** [GET /api/memories]. *)
Definition api_memories (fs : filesystem) : response :=
  if negb (existsSync fs (memoriesDir, false)) then
    mk_response 200 (Memories [])
  else
    match readdirSync fs memoriesDir with
    | Some files =>
        let memories := filter_Boolean (map (memory_of fs) files) in
        mk_response 200 (Memories (sort_by by_created memories))
    | None => mk_response 500 (Failure MSG_LIST_FAILED)
    end.

(** [DELETE /delete/:filename]. *)
Definition delete (fs : filesystem) (name : jsstring) : response * filesystem :=
  let filePath := path_join dirname [lit "anhkiniem"; name] in
  if negb (existsSync fs filePath) then
    (mk_response 404 (Failure MSG_NOT_FOUND), fs)
  else
    match unlinkSync fs filePath with
    | Some fs' => (mk_response 200 (Success MSG_DELETED), fs')
    | None => (mk_response 500 (Failure MSG_DELETE_FAILED), fs)
    end.

(** [destination] of the disk storage: the directory is created on first
    use. *)
Definition destination (env : upload_env) (fs : filesystem)
  : option (path * filesystem) :=
  let uploadDir := memoriesDir in
  if negb (existsSync fs (uploadDir, false)) then
    match mkdirSync_recursive (dir_stats env) fs uploadDir with
    | Some fs' => Some (uploadDir, fs')
    | None => None
    end
  else Some (uploadDir, fs).

(** [POST /upload] behind [upload.single('memory')], for a request with at
    most one file part.  Multer skips a part without filename, refuses a
    part in another field with [LIMIT_UNEXPECTED_FILE], then asks
    [fileFilter]; an accepted part is streamed to
    [path.join(destination, filename)].  The multipart parser reports the
    limit as soon as the file has reached [limits.fileSize] bytes: the
    request is then aborted with [LIMIT_FILE_SIZE] and the file removed
    again.  A write stream that cannot open the file reports its error
    before any byte counts; the plain error goes to the error middleware.
    The result is [None] in the two situations that the model does not
    follow further: [mkdirSync] throws inside [destination], or the target
    is a dangling link, through which the file would land outside of what
    the model holds. *)
Definition upload (env : upload_env) (fs : filesystem) (part : option file_part)
  : option (response * filesystem) :=
  match part with
  | None => Some (mk_response 400 (Failure MSG_NO_FILE), fs)
  | Some file =>
      if str_eqb (originalname file) [] then
        Some (mk_response 400 (Failure MSG_NO_FILE), fs)
      else if negb (str_eqb (fieldname file) (lit "memory")) then
        Some (error_middleware
                (MulterError LIMIT_UNEXPECTED_FILE (lit "Unexpected field")), fs)
      else
        match fileFilter file with
        | Some e => Some (error_middleware e, fs)
        | None =>
            match destination env fs with
            | None => None
            | Some (dir, fs1) =>
                let stored :=
                  storage_filename (now env) (rnd env) (originalname file) in
                let finalPath := path_join dir [stored] in
                match fs_find fs1 (fst finalPath) with
                | Some Dangling => None
                | _ =>
                    if (fileSize <=? bytes_sent file)%N then
                      match write_file fs1 finalPath fileSize (file_birthtime env) with
                      | Some fs2 =>
                          Some (error_middleware
                                  (MulterError LIMIT_FILE_SIZE (lit "File too large")),
                                fs_remove fs2 (fst finalPath))
                      | None =>
                          Some (error_middleware (Error (write_error env)), fs1)
                      end
                    else
                      match write_file fs1 finalPath (bytes_sent file)
                                       (file_birthtime env) with
                      | Some fs2 =>
                          Some (mk_response 200
                                  (Uploaded stored MSG_UPLOADED (bytes_sent file)),
                                fs2)
                      | None =>
                          Some (error_middleware (Error (write_error env)), fs1)
                      end
                end
            end
        end
  end.

End Server.

(** * Notions used in the statements *)

(** The name without its extension, the extension being what
    [path.extname] (which the lister uses for [type]) says it is. *)
Definition without_extname (name : jsstring) : jsstring :=
  firstn (List.length name - List.length (path_extname name)) name.

Definition MY_PHOTO_PNG : jsstring := lit "1700000000000-123456789-My_Photo.png".

(** ['Kỷ niệm My_Photo'] *)
Definition TITLE_MY_PHOTO : jsstring := TITLE_PREFIX ++ lit "My_Photo".

(** A name that is one path segment: not empty, without separator, and
    neither ['.'] nor ['..']. *)
Definition plain_name (name : jsstring) : bool :=
  negb (str_eqb name [])
  && negb (existsb (N.eqb CHAR_FORWARD_SLASH) name)
  && negb (str_eqb name (lit "."))
  && negb (str_eqb name (lit "..")).

(** A segment that normalisation keeps. *)
Definition kept_segment (seg : jsstring) : bool :=
  negb (str_eqb seg []) && negb (str_eqb seg (lit "."))
  && negb (str_eqb seg (lit "..")).

(** A file or a directory is found under the path. *)
Definition entry_exists (fs : filesystem) (p : path) : bool :=
  match fs_find fs p with
  | Some (File _) | Some (Dir _) => true
  | Some Dangling | None => false
  end.

(** The metadata of the entry [name] of the storage directory can be
    read. *)
Definition readable (dirname : path) (fs : filesystem) (name : jsstring) : bool :=
  match statSync fs (path_join (memoriesDir dirname) [name]) with
  | Some _ => true
  | None => false
  end.

(** The storage path is absent or names a directory (or a dangling link,
    which [existsSync] reports as absent), not a regular file. *)
Definition storage_dir_usable (dirname : path) (fs : filesystem) : bool :=
  match fs_find fs (memoriesDir dirname) with
  | Some (File _) => false
  | _ => true
  end.

(** The items of a listing response. *)
Definition listed (r : response) : list memory :=
  match payload r with
  | Memories items => items
  | _ => []
  end.

(** The entries of the storage directory whose metadata can be read, each
    with the creation time that [statSync] reports, in the order of
    enumeration; none when the storage path is no directory. *)
Definition entry_times (dirname : path) (fs : filesystem) : list (jsstring * Z) :=
  match fs_find fs (memoriesDir dirname) with
  | Some (Dir _) =>
      flat_map (fun n => match statSync fs (path_join (memoriesDir dirname) [n]) with
                         | Some stats => [(n, Stats.birthtime stats)]
                         | None => []
                         end)
               (children fs (memoriesDir dirname))
  | _ => []
  end.

(** The ['..'] segments never climb above the directory in which the
    segments are resolved; [depth] counts the segments entered so far. *)
Fixpoint stays_below (depth : nat) (segs : list jsstring) : bool :=
  match segs with
  | [] => true
  | seg :: rest =>
      if str_eqb seg [] || str_eqb seg (lit ".") then stays_below depth rest
      else if str_eqb seg (lit "..") then
        match depth with
        | O => false
        | S d => stays_below d rest
        end
      else stays_below (S depth) rest
  end.

(** The path that a delete request acts on:
    [path.join(__dirname, 'anhkiniem', filename)]. *)
Definition delete_target (dirname : path) (name : jsstring) : path :=
  fst (path_join dirname [lit "anhkiniem"; name]).

(** A name that, read as a relative path, never climbs above its starting
    directory. *)
Definition stays_inside (name : jsstring) : bool :=
  stays_below 0 (split CHAR_FORWARD_SLASH name).

(** Items listed most recent first. *)
Definition newest_first (items : list memory) : Prop :=
  StronglySorted (fun a b => created b <= created a) items.

(** ** Sample data

    A runtime whose case mapping leaves strings outside ASCII alone and
    whose date formatting prints the time value; the script lives in
    [/app]. *)

Definition sample_toLowerCase (s : jsstring) : jsstring := s.
Definition sample_toLocaleDateString (t : Z) : jsstring := Number_toString t.
Definition script_dir : path := [lit "app"].
Definition storage : path := script_dir ++ [lit "anhkiniem"].
Definition dstats : Stats.t := Stats.mk 4096 0.

(** [/app] with the script, the storage directory holding three files
    created at 100 < 200 < 300 (enumerated out of order), a dangling link
    and a subdirectory. *)
Definition sample_fs : filesystem :=
  [ ([], Dir dstats);
    (script_dir, Dir dstats);
    (script_dir ++ [lit "server.js"], File (Stats.mk 9000 5));
    (storage, Dir dstats);
    (storage ++ [lit "1700000000200-7-b.mp4"], File (Stats.mk 20 200));
    (storage ++ [lit "1700000000300-8-c.txt"], File (Stats.mk 30 300));
    (storage ++ [lit "broken"], Dangling);
    (storage ++ [lit "1700000000000-123456789-My_Photo.png"], File (Stats.mk 10 100));
    (storage ++ [lit "album"], Dir (Stats.mk 4096 50)) ].

(** The sample filesystem with nothing but the storage directory's three
    files. *)
Definition three_files_fs : filesystem :=
  [ ([], Dir dstats);
    (script_dir, Dir dstats);
    (storage, Dir dstats);
    (storage ++ [lit "1700000000200-7-b.mp4"], File (Stats.mk 20 200));
    (storage ++ [lit "1700000000300-8-c.txt"], File (Stats.mk 30 300));
    (storage ++ [lit "1700000000000-123456789-My_Photo.png"], File (Stats.mk 10 100)) ].

Definition empty_storage_fs : filesystem :=
  [ ([], Dir dstats); (script_dir, Dir dstats); (storage, Dir dstats) ].

Definition no_storage_fs : filesystem :=
  [ ([], Dir dstats); (script_dir, Dir dstats) ].

Definition sample_env : upload_env :=
  mk_upload_env 1700000000400 42 400 dstats (lit "ENOTDIR: not a directory").


Definition sample_upload (name mime : string) (size : N) : file_part :=
  mk_file_part (lit "memory") (lit name) (lit mime) size.


(** The MIME types the upload filter lets through. *)
Definition accepted_types : list jsstring :=
  map lit ["image/jpeg"; "image/jpg"; "image/png"; "image/gif"; "image/webp";
           "video/mp4"; "video/avi"; "video/mov"; "video/wmv"; "video/flv";
           "video/webm"]%string.

(** A file part that multer hands to [fileFilter]: it has a filename and
    sits in the field [memory]. *)
Definition reaches_filter (file : file_part) : bool :=
  negb (str_eqb (originalname file) []) && str_eqb (fieldname file) (lit "memory").


(** The loop of [path.extname] on the code units of [s] that start at
    index [n], written by recursion on [s]. *)
Fixpoint ext_scan (n : nat) (s : jsstring) : ext_state :=
  match s with
  | [] => ext_init
  | c :: s' => ext_step (ext_scan (S n) s') (Z.of_nat n, c)
  end.

(** Neither a dot nor a separator occurs in the string. *)
Definition dotless (s : jsstring) : Prop :=
  ~ In CHAR_DOT s /\ ~ In CHAR_FORWARD_SLASH s.

(** * Further notions *)

(** No code unit of the string is white space. *)
Definition no_space (s : jsstring) : bool :=
  forallb (fun c => negb (is_space c)) s.

(** Number of hyphens in a name. *)
Definition hyphens (name : jsstring) : nat :=
  count_occ N.eq_dec name CHAR_HYPHEN.

(** The callback of [app.listen]: the storage directory is created when
    [existsSync] does not find it; [None] when [mkdirSync] throws. *)
Definition listen_callback (dirname : path) (dstats : Stats.t) (fs : filesystem)
  : option filesystem :=
  let uploadDir := memoriesDir dirname in
  if negb (existsSync fs (uploadDir, false)) then
    mkdirSync_recursive dstats fs uploadDir
  else Some fs.

(** Every entry of the storage directory has a name that is one path
    segment. *)
Definition valid_names (dirname : path) (fs : filesystem) : bool :=
  forallb plain_name (children fs (memoriesDir dirname)).

(** A storage directory with a file that the generator did not name. *)
Definition legacy_fs : filesystem :=
  [ ([], Dir dstats);
    (script_dir, Dir dstats);
    (storage, Dir dstats);
    (storage ++ [lit "IMG.0001.JPG"], File (Stats.mk 7 70)) ].

Definition sample_item (name kind shown : string) (sz : N) (t : Z) : memory :=
  mk_memory (lit name) (lit kind) (TITLE_PREFIX ++ lit shown)
            (sample_toLocaleDateString t) sz t.

(** * Properties *)

(** ** Strings and paths *)

Lemma str_eqb_eq (a b : jsstring) : str_eqb a b = true <-> a = b.
Proof.
  revert b; induction a as [|x a IH]; intros [|y b]; simpl; split;
    try congruence; try reflexivity.
  - intros H. apply andb_prop in H as [Hx Hr].
    apply N.eqb_eq in Hx. apply IH in Hr. congruence.
  - intros H. injection H as -> ->.
    rewrite N.eqb_refl. simpl. now apply IH.
Qed.

Lemma str_eqb_refl (a : jsstring) : str_eqb a a = true.
Proof. now apply str_eqb_eq. Qed.

Lemma str_eqb_neq (a b : jsstring) : a <> b -> str_eqb a b = false.
Proof.
  intros H. destruct (str_eqb a b) eqn:E; [|reflexivity].
  apply str_eqb_eq in E. contradiction.
Qed.

Lemma path_eqb_eq (p q : path) : path_eqb p q = true <-> p = q.
Proof.
  revert q; induction p as [|a p IH]; intros [|b q]; simpl; split;
    try congruence; try reflexivity.
  - intros H. apply andb_prop in H as [Ha Hr].
    apply str_eqb_eq in Ha. apply IH in Hr. congruence.
  - intros H. injection H as -> ->.
    rewrite str_eqb_refl. simpl. now apply IH.
Qed.

Lemma path_eqb_refl (p : path) : path_eqb p p = true.
Proof. now apply path_eqb_eq. Qed.

Lemma path_eqb_neq (p q : path) : p <> q -> path_eqb p q = false.
Proof.
  intros H. destruct (path_eqb p q) eqn:E; [|reflexivity].
  apply path_eqb_eq in E. contradiction.
Qed.

Lemma includes_In (l : list jsstring) (s : jsstring) :
  includes l s = true <-> In s l.
Proof.
  unfold includes. rewrite existsb_exists. split.
  - intros [x [Hin Heq]]. apply str_eqb_eq in Heq. now subst.
  - intros Hin. exists s. split; [assumption | apply str_eqb_refl].
Qed.

Lemma split_nonempty (sep : N) (s : jsstring) : split sep s <> [].
Proof.
  destruct s as [|c s]; simpl; [discriminate|].
  destruct (N.eqb c sep); [discriminate|].
  destruct (split sep s); discriminate.
Qed.

(** A string without the separator is its own single piece. *)
Lemma split_without (sep : N) (s : jsstring) :
  ~ In sep s -> split sep s = [s].
Proof.
  induction s as [|c s IH]; simpl; intros Hn; [reflexivity|].
  destruct (N.eqb c sep) eqn:E.
  - apply N.eqb_eq in E. exfalso. apply Hn. now left.
  - rewrite IH; [reflexivity|]. intros Hin. apply Hn. now right.
Qed.

(** A separator ends the last piece of what precedes it. *)
Lemma split_app_sep (sep : N) (a b : jsstring) :
  split sep (a ++ sep :: b) = split sep a ++ split sep b.
Proof.
  induction a as [|c a IH]; simpl.
  - now rewrite N.eqb_refl.
  - destruct (N.eqb c sep); [now rewrite IH|].
    rewrite IH.
    destruct (split sep a) as [|h t] eqn:E; [|reflexivity].
    now apply split_nonempty in E.
Qed.

(** Joining the pieces with the separator gives the string back. *)
Lemma join_split (sep : N) (s : jsstring) :
  join [sep] (split sep s) = s.
Proof.
  induction s as [|c s IH]; simpl; [reflexivity|].
  destruct (N.eqb c sep) eqn:E.
  - apply N.eqb_eq in E. subst c.
    destruct (split sep s) as [|h t] eqn:Es.
    + now apply split_nonempty in Es.
    + simpl in *. now rewrite IH.
  - destruct (split sep s) as [|h t] eqn:Es.
    + now apply split_nonempty in Es.
    + destruct t as [|h' t']; simpl in *.
      * now subst.
      * now rewrite <- IH.
Qed.

(** The first piece is the part before the first separator. *)
Lemma hd_split_app (sep : N) (a b : jsstring) (d : jsstring) :
  ~ In sep a -> hd d (split sep (a ++ sep :: b)) = a.
Proof.
  intros Hn. rewrite split_app_sep, (split_without sep a Hn). reflexivity.
Qed.

Lemma digits_of_uint_digit (u : Decimal.uint) (c : N) :
  In c (digits_of_uint u) -> (48 <= c <= 57)%N.
Proof.
  induction u; simpl; intros H; try contradiction;
    (destruct H as [<- | H]; [lia | now apply IHu]).
Qed.

(** The decimal text of a number that is not negative has no hyphen. *)
Lemma Number_toString_no_hyphen (n : Z) :
  0 <= n -> ~ In CHAR_HYPHEN (Number_toString n).
Proof.
  intros Hn Hin. unfold Number_toString in Hin.
  destruct (n <? 0) eqn:E; [apply Z.ltb_lt in E; lia|].
  apply digits_of_uint_digit in Hin. unfold CHAR_HYPHEN in Hin. lia.
Qed.

(** ** Filename generation and title recovery *)

Lemma storage_filename_shape (now rnd : Z) (o : jsstring) :
  storage_filename now rnd o =
  Number_toString now ++ CHAR_HYPHEN ::
    (Number_toString rnd ++ CHAR_HYPHEN :: replace_ws o).
Proof.
  unfold storage_filename, uniqueSuffix.
  change (lit "-") with [CHAR_HYPHEN].
  now rewrite <- !app_assoc.
Qed.

(** Dropping the two generated segments gives the sanitised name back,
    hyphens of the original name included. *)
Lemma drop_prefix_segments (now rnd : Z) (o : jsstring) :
  0 <= now -> 0 <= rnd ->
  join (lit "-") (slice_from 2 (split CHAR_HYPHEN (storage_filename now rnd o)))
  = replace_ws o.
Proof.
  intros Hnow Hrnd.
  rewrite storage_filename_shape, !split_app_sep.
  rewrite (split_without _ _ (Number_toString_no_hyphen now Hnow)).
  rewrite (split_without _ _ (Number_toString_no_hyphen rnd Hrnd)).
  simpl. apply join_split.
Qed.

(** What title recovery computes on a generated name: the sanitised name
    up to its first dot. *)
Lemma recover_title_storage_filename (now rnd : Z) (o : jsstring) :
  0 <= now -> 0 <= rnd ->
  recover_title (storage_filename now rnd o)
  = hd undefined_text (split CHAR_DOT (replace_ws o)).
Proof.
  intros Hnow Hrnd. unfold recover_title.
  now rewrite drop_prefix_segments.
Qed.

(** For a sanitised name [stem.ext] whose stem has no dot, the recovered
    title is the stem. *)
Lemma recover_title_single_dot (now rnd : Z) (o stem ext : jsstring) :
  0 <= now -> 0 <= rnd ->
  replace_ws o = stem ++ CHAR_DOT :: ext -> ~ In CHAR_DOT stem ->
  recover_title (storage_filename now rnd o) = stem.
Proof.
  intros Hnow Hrnd Hs Hstem.
  rewrite recover_title_storage_filename by assumption.
  rewrite Hs. now apply hd_split_app.
Qed.

(** ** [path.extname] on names with at most one dot *)

Lemma ext_scan_fold (n : nat) (s : jsstring) :
  fold_left ext_step
            (List.rev (combine (map Z.of_nat (seq n (List.length s))) s))
            ext_init
  = ext_scan n s.
Proof.
  revert n. induction s as [|c s IH]; intros n; simpl; [reflexivity|].
  rewrite fold_left_app. simpl. now rewrite IH.
Qed.

Lemma dotless_cons (c : N) (s : jsstring) :
  dotless (c :: s) ->
  N.eqb c CHAR_DOT = false /\ N.eqb c CHAR_FORWARD_SLASH = false /\ dotless s.
Proof.
  intros [Hd Hs]. repeat split.
  - apply N.eqb_neq. intros ->. apply Hd. now left.
  - apply N.eqb_neq. intros ->. apply Hs. now left.
  - intros H. apply Hd. now right.
  - intros H. apply Hs. now right.
Qed.

(** Scanning a part without dot: only the end of the name is marked. *)
Lemma ext_scan_dotless (n : nat) (t : jsstring) :
  t <> [] -> dotless t ->
  ext_scan n t
  = mk_ext_state (-1) 0 (Z.of_nat (n + List.length t)) false 0 false.
Proof.
  revert n. induction t as [|c t IH]; intros n Hne Hd; [contradiction|].
  apply dotless_cons in Hd as (Hdot & Hslash & Hd).
  simpl ext_scan. destruct t as [|c' t].
  - simpl. unfold ext_step. simpl. rewrite Hslash, Hdot. simpl.
    do 2 f_equal. lia.
  - rewrite (IH (S n)) by (assumption || discriminate).
    unfold ext_step. simpl stopped. cbv iota. rewrite Hslash, Hdot.
    cbn [end_ startDot].
    replace (Z.of_nat (S n + List.length (c' :: t)) =? -1) with false
      by (symmetry; apply Z.eqb_neq; lia).
    simpl. do 2 f_equal. lia.
Qed.

(** Scanning [.ext]: the dot is the start of the extension. *)
Lemma ext_scan_dot (n : nat) (ext : jsstring) :
  dotless ext ->
  ext_scan n (CHAR_DOT :: ext)
  = mk_ext_state (Z.of_nat n) 0 (Z.of_nat (n + 1 + List.length ext))
                 false 0 false.
Proof.
  intros Hd. simpl ext_scan. destruct ext as [|c ext].
  - simpl. unfold ext_step. simpl. do 2 f_equal. lia.
  - rewrite (ext_scan_dotless (S n)) by (assumption || discriminate).
    unfold ext_step. simpl stopped. cbv iota.
    change (N.eqb CHAR_DOT CHAR_FORWARD_SLASH) with false.
    change (N.eqb CHAR_DOT CHAR_DOT) with true. cbv iota.
    cbn [end_ startDot].
    replace (Z.of_nat (S n + List.length (c :: ext)) =? -1) with false
      by (symmetry; apply Z.eqb_neq; lia).
    simpl. do 2 f_equal. lia.
Qed.

(** Scanning [stem.ext]: a character before the dot was seen. *)
Lemma ext_scan_stem (n : nat) (stem ext : jsstring) :
  stem <> [] -> dotless stem -> dotless ext ->
  ext_scan n (stem ++ CHAR_DOT :: ext)
  = mk_ext_state (Z.of_nat (n + List.length stem)) 0
                 (Z.of_nat (n + List.length stem + 1 + List.length ext))
                 false (-1) false.
Proof.
  revert n. induction stem as [|c stem IH]; intros n Hne Hs He; [contradiction|].
  apply dotless_cons in Hs as (Hdot & Hslash & Hs).
  change (ext_scan n ((c :: stem) ++ CHAR_DOT :: ext))
    with (ext_step (ext_scan (S n) (stem ++ CHAR_DOT :: ext)) (Z.of_nat n, c)).
  destruct stem as [|c' stem].
  - change ([] ++ CHAR_DOT :: ext) with (CHAR_DOT :: ext).
    rewrite ext_scan_dot by assumption.
    unfold ext_step. simpl stopped. cbv iota. rewrite Hslash, Hdot.
    cbn [end_ startDot].
    replace (Z.of_nat (S n + 1 + List.length ext) =? -1) with false
      by (symmetry; apply Z.eqb_neq; lia).
    replace (Z.of_nat (S n) =? -1) with false
      by (symmetry; apply Z.eqb_neq; lia).
    simpl. f_equal; lia.
  - rewrite (IH (S n)) by (assumption || discriminate).
    unfold ext_step. simpl stopped. cbv iota. rewrite Hslash, Hdot.
    cbn [end_ startDot].
    replace (Z.of_nat (S n + List.length (c' :: stem) + 1 + List.length ext) =? -1)
      with false by (symmetry; apply Z.eqb_neq; lia).
    replace (Z.of_nat (S n + List.length (c' :: stem)) =? -1) with false
      by (symmetry; apply Z.eqb_neq; lia).
    simpl. f_equal; lia.
Qed.

(** [path.extname('stem.ext')] is ['.ext'] when the stem is not empty and
    the dot is the only one. *)
Lemma path_extname_single_dot (stem ext : jsstring) :
  stem <> [] -> dotless stem -> dotless ext ->
  path_extname (stem ++ CHAR_DOT :: ext) = CHAR_DOT :: ext.
Proof.
  intros Hne Hs He. unfold path_extname, indexed.
  rewrite ext_scan_fold, ext_scan_stem by assumption.
  cbn [startDot end_ preDotState startPart].
  replace (Z.of_nat (0 + List.length stem) =? -1) with false
    by (symmetry; apply Z.eqb_neq; lia).
  replace (Z.of_nat (0 + List.length stem + 1 + List.length ext) =? -1)
    with false by (symmetry; apply Z.eqb_neq; lia).
  simpl orb. cbv iota.
  replace (Z.to_nat (Z.of_nat (0 + List.length stem + 1 + List.length ext)
                     - Z.of_nat (0 + List.length stem)))
    with (S (List.length ext)) by lia.
  rewrite Nat2Z.id. simpl Nat.add.
  rewrite skipn_app, skipn_all, Nat.sub_diag. simpl.
  now rewrite firstn_all.
Qed.

(** [path.extname] of a name without dot is empty. *)
Lemma path_extname_dotless (s : jsstring) :
  dotless s -> path_extname s = [].
Proof.
  intros Hd. unfold path_extname, indexed. rewrite ext_scan_fold.
  destruct s as [|c s]; [reflexivity|].
  now rewrite ext_scan_dotless by (assumption || discriminate).
Qed.

Lemma without_extname_single_dot (stem ext : jsstring) :
  stem <> [] -> dotless stem -> dotless ext ->
  without_extname (stem ++ CHAR_DOT :: ext) = stem.
Proof.
  intros Hne Hs He. unfold without_extname.
  rewrite path_extname_single_dot by assumption.
  rewrite length_app. simpl List.length.
  replace (List.length stem + S (List.length ext) - S (List.length ext))%nat
    with (List.length stem) by lia.
  rewrite firstn_app, Nat.sub_diag, firstn_all. simpl. apply app_nil_r.
Qed.

(** Where recovery does invert generation: the sanitised name has the
    shape [stem.ext] with a single dot, or no dot at all. *)
Lemma recover_title_inverts_single_dot (now rnd : Z) (o stem ext : jsstring) :
  0 <= now -> 0 <= rnd ->
  replace_ws o = stem ++ CHAR_DOT :: ext ->
  stem <> [] -> dotless stem -> dotless ext ->
  recover_title (storage_filename now rnd o) = without_extname (replace_ws o).
Proof.
  intros Hnow Hrnd Hshape Hne Hs He.
  rewrite (recover_title_single_dot now rnd o stem ext) by (assumption || apply Hs).
  rewrite Hshape. symmetry. now apply without_extname_single_dot.
Qed.

Lemma recover_title_inverts_dotless (now rnd : Z) (o : jsstring) :
  0 <= now -> 0 <= rnd -> dotless (replace_ws o) ->
  recover_title (storage_filename now rnd o) = without_extname (replace_ws o).
Proof.
  intros Hnow Hrnd Hd.
  rewrite recover_title_storage_filename by assumption.
  unfold without_extname. rewrite (path_extname_dotless _ Hd).
  rewrite (split_without _ _ (proj1 Hd)). simpl.
  now rewrite Nat.sub_0_r, firstn_all.
Qed.

(** C1.  On the original name ['Da Lat.2024.jpg'] the generated storage
    name is ['1700000000000-123456789-Da_Lat.2024.jpg']; title recovery
    cuts it at the first dot and yields ['Da_Lat'], whereas the sanitised
    name without its extension ['.jpg'] is ['Da_Lat.2024']: recovery is
    not the inverse of generation on names with more than one dot. *)
Theorem title_recovery_cuts_at_first_dot :
  let o := lit "Da Lat.2024.jpg" in
  storage_filename 1700000000000 123456789 o
    = lit "1700000000000-123456789-Da_Lat.2024.jpg"
  /\ recover_title (storage_filename 1700000000000 123456789 o) = lit "Da_Lat"
  /\ path_extname (replace_ws o) = lit ".jpg"
  /\ without_extname (replace_ws o) = lit "Da_Lat.2024"
  /\ recover_title (storage_filename 1700000000000 123456789 o)
     <> without_extname (replace_ws o).
Proof.
  repeat split; try (vm_compute; reflexivity).
  vm_compute. discriminate.
Qed.

Section Lister.
Variable unicode_toLowerCase : jsstring -> jsstring.
Variable toLocaleDateString : Z -> jsstring.
Variable dirname : path.

(** C2.  For the stored file ['1700000000000-123456789-My_Photo.png'],
    whenever its metadata can be read, the lister derives the item with
    title ['Kỷ niệm My_Photo'] and type ['image'] (and the size and
    creation time of the metadata). *)
Theorem title_derivation_My_Photo (fs : filesystem) (stats : Stats.t) :
  statSync fs (path_join (memoriesDir dirname) [MY_PHOTO_PNG]) = Some stats ->
  memory_of unicode_toLowerCase toLocaleDateString dirname fs MY_PHOTO_PNG
  = Some (mk_memory MY_PHOTO_PNG
                    (lit "image")
                    TITLE_MY_PHOTO
                    (toLocaleDateString (Stats.birthtime stats))
                    (Stats.size stats)
                    (Stats.birthtime stats)).
Proof.
  intros Hstat. unfold memory_of. rewrite Hstat. reflexivity.
Qed.

End Lister.

(** ** Sorting *)

Section SortFacts.
Context {A : Type} (cmp : A -> A -> Z).

Lemma insert_by_perm (x : A) (l : list A) :
  Permutation (insert_by cmp x l) (x :: l).
Proof.
  induction l as [|y l IH]; simpl; [reflexivity|].
  destruct (0 <? cmp x y); [|reflexivity].
  rewrite IH. apply perm_swap.
Qed.

Lemma sort_by_perm (l : list A) : Permutation (sort_by cmp l) l.
Proof.
  induction l as [|x l IH]; simpl; [reflexivity|].
  rewrite insert_by_perm. now apply perm_skip.
Qed.
End SortFacts.

Lemma insert_by_created_sorted (x : memory) (l : list memory) :
  newest_first l -> newest_first (insert_by by_created x l).
Proof.
  unfold newest_first.
  induction l as [|y l IH]; simpl; intros Hs.
  - constructor; constructor.
  - apply StronglySorted_inv in Hs as [Hl Hy].
    destruct (0 <? by_created x y) eqn:E.
    + apply Z.ltb_lt in E. unfold by_created in E.
      constructor; [now apply IH|].
      rewrite (insert_by_perm by_created x l).
      constructor; [lia | assumption].
    + apply Z.ltb_ge in E. unfold by_created in E.
      constructor; [now constructor|].
      constructor; [lia|].
      eapply Forall_impl; [|exact Hy]. simpl. intros z Hz. lia.
Qed.

Lemma sort_by_created_sorted (l : list memory) :
  newest_first (sort_by by_created l).
Proof.
  induction l as [|x l IH]; simpl.
  - constructor.
  - now apply insert_by_created_sorted.
Qed.

(** Three items created at increasing times come out newest first,
    whatever the order in which the directory enumerates them. *)
Lemma sort_three_by_created (a b c : memory) :
  created a < created b -> created b < created c ->
  Forall (fun l => sort_by by_created l = [c; b; a])
         [[a; b; c]; [a; c; b]; [b; a; c]; [b; c; a]; [c; a; b]; [c; b; a]].
Proof.
  intros Hab Hbc.
  repeat constructor; simpl; unfold by_created;
    repeat match goal with
           | |- context [0 <? ?e] =>
               let E := fresh "E" in
               destruct (0 <? e) eqn:E;
               [apply Z.ltb_lt in E | apply Z.ltb_ge in E]; try lia; simpl
           end; reflexivity.
Qed.

(** ** Listing *)

Lemma filter_Boolean_names (dirname : path)
      (u : jsstring -> jsstring) (d : Z -> jsstring)
      (fs : filesystem) (names : list jsstring) :
  map filename (filter_Boolean (map (memory_of u d dirname fs) names))
  = filter (readable dirname fs) names.
Proof.
  induction names as [|n names IH]; simpl; [reflexivity|].
  unfold readable at 1, memory_of at 1.
  destruct (statSync fs (path_join (memoriesDir dirname) [n])); simpl;
    now rewrite IH.
Qed.

Lemma In_filter_Boolean {A : Type} (l : list (option A)) (x : A) :
  In x (filter_Boolean l) <-> In (Some x) l.
Proof.
  induction l as [|[y|] l IH]; simpl; [tauto| |].
  - rewrite IH. split; intros [H|H]; auto; left; congruence.
  - rewrite IH. split; [auto|]. intros [H|H]; [discriminate | assumption].
Qed.

Lemma filter_Boolean_times (dirname : path)
      (u : jsstring -> jsstring) (d : Z -> jsstring)
      (fs : filesystem) (names : list jsstring) :
  map (fun m => (filename m, created m))
      (filter_Boolean (map (memory_of u d dirname fs) names))
  = flat_map (fun n => match statSync fs (path_join (memoriesDir dirname) [n]) with
                       | Some stats => [(n, Stats.birthtime stats)]
                       | None => []
                       end) names.
Proof.
  induction names as [|n names IH]; simpl; [reflexivity|].
  unfold memory_of at 1.
  destruct (statSync fs (path_join (memoriesDir dirname) [n])); simpl;
    now rewrite IH.
Qed.

Section ListerFacts.
Variable unicode_toLowerCase : jsstring -> jsstring.
Variable toLocaleDateString : Z -> jsstring.
Variable dirname : path.

(** C6.  In every state in which the storage path is not occupied by a
    regular file, the listing answers 200; its items are, with their
    creation times, exactly the entries of the storage directory whose
    metadata can be read; and they come in descending order of [created]:
    every item is at least as recent as all items behind it.  Entries
    created at t1 < t2 < t3 are therefore listed in the order t3, t2, t1. *)
Theorem list_newest_first (fs : filesystem) :
  storage_dir_usable dirname fs = true ->
  exists items,
    api_memories unicode_toLowerCase toLocaleDateString dirname fs
    = mk_response 200 (Memories items)
    /\ newest_first items
    /\ Permutation (map (fun m => (filename m, created m)) items)
                   (entry_times dirname fs).
Proof.
  unfold storage_dir_usable, entry_times, api_memories, existsSync, readdirSync.
  cbn [fst snd].
  destruct (fs_find fs (memoriesDir dirname)) as [[st|st|]|]; intros Hu;
    try discriminate; cbn [negb]; cbv iota; eexists;
    (split; [reflexivity|]); try (split; constructor).
  split; [apply sort_by_created_sorted|].
  rewrite <- (filter_Boolean_times dirname unicode_toLowerCase toLocaleDateString).
  apply Permutation_map, sort_by_perm.
Qed.

(** C8.  When the storage directory is absent, or is a directory without
    entries, the listing answers 200 with the empty sequence. *)
Theorem list_empty_or_absent (fs : filesystem) :
  fs_find fs (memoriesDir dirname) = None
  \/ (exists st, fs_find fs (memoriesDir dirname) = Some (Dir st))
     /\ children fs (memoriesDir dirname) = [] ->
  api_memories unicode_toLowerCase toLocaleDateString dirname fs
    = mk_response 200 (Memories []).
Proof.
  unfold api_memories, existsSync, readdirSync. simpl.
  intros [Habsent | [[st Hdir] Hempty]].
  - now rewrite Habsent.
  - rewrite Hdir. simpl. now rewrite Hempty.
Qed.

(** C9.  When the storage directory is a directory, the listing answers
    200 and its items are, up to order, exactly the entries whose metadata
    can be read: an entry on which [statSync] throws is left out and all
    others are listed.  Every listed item is the stored item of its entry:
    size and creation time are those that [statSync] reports for it, the
    date is the formatted creation time, and type and title are derived
    from its filename. *)
Theorem list_skips_unreadable (fs : filesystem) (st : Stats.t) :
  fs_find fs (memoriesDir dirname) = Some (Dir st) ->
  exists items,
    api_memories unicode_toLowerCase toLocaleDateString dirname fs
      = mk_response 200 (Memories items)
    /\ Permutation (map filename items)
                   (filter (readable dirname fs)
                           (children fs (memoriesDir dirname)))
    /\ forall m, In m items ->
         statSync fs (path_join (memoriesDir dirname) [filename m])
         = Some (Stats.mk (size m) (created m))
         /\ type m = classify (substring1 (toLowerCase unicode_toLowerCase
                                                        (path_extname (filename m))))
         /\ title m = TITLE_PREFIX ++ recover_title (filename m)
         /\ date m = toLocaleDateString (created m).
Proof.
  intros Hdir. unfold api_memories, existsSync, readdirSync. simpl.
  rewrite Hdir. simpl.
  eexists. split; [reflexivity|]. split.
  - rewrite <- (filter_Boolean_names dirname unicode_toLowerCase toLocaleDateString).
    apply Permutation_map, sort_by_perm.
  - intros m Hin.
    apply (Permutation_in _ (sort_by_perm by_created _)) in Hin.
    apply In_filter_Boolean, in_map_iff in Hin as [n [Hm Hn]].
    unfold memory_of in Hm.
    destruct (statSync fs (path_join (memoriesDir dirname) [n]))
      as [[sz bt]|] eqn:Hstat; [|discriminate].
    injection Hm as <-. cbn [filename size created type title date].
    rewrite Hstat. repeat split; reflexivity.
Qed.

End ListerFacts.

(** ** The filesystem *)

Lemma fs_find_remove_same (fs : filesystem) (p : path) :
  fs_find (fs_remove fs p) p = None.
Proof.
  unfold fs_find, fs_remove.
  induction fs as [|[q n] fs IH]; simpl; [reflexivity|].
  destruct (path_eqb q p) eqn:E; simpl; [assumption|].
  now rewrite E.
Qed.

Lemma fs_find_remove_other (fs : filesystem) (p q : path) :
  q <> p -> fs_find (fs_remove fs p) q = fs_find fs q.
Proof.
  intros Hne. unfold fs_find, fs_remove.
  induction fs as [|[r n] fs IH]; simpl; [reflexivity|].
  destruct (path_eqb r p) eqn:E; simpl.
  - apply path_eqb_eq in E. subst r.
    rewrite (path_eqb_neq p q) by congruence. assumption.
  - destruct (path_eqb r q); [reflexivity | assumption].
Qed.

Lemma fs_remove_keeps (fs : filesystem) (p : path) (e : path * node) :
  In e fs -> fst e <> p -> In e (fs_remove fs p).
Proof.
  intros Hin Hne. unfold fs_remove. apply filter_In. split; [assumption|].
  now rewrite path_eqb_neq.
Qed.


Lemma fs_find_app_absent (fs : filesystem) (p : path) (n : node) :
  fs_find fs p = None -> fs_find (fs ++ [(p, n)]) p = Some n.
Proof.
  unfold fs_find.
  induction fs as [|[q m] fs IH]; simpl.
  - now rewrite path_eqb_refl.
  - destruct (path_eqb q p); [discriminate | assumption].
Qed.

Lemma unlinkSync_removes (fs fs' : filesystem) (fp : path * bool) :
  unlinkSync fs fp = Some fs' -> fs' = fs_remove fs (fst fp).
Proof.
  unfold unlinkSync.
  destruct (fs_find fs (fst fp)) as [[st|st|]|]; try discriminate;
    destruct (snd fp); try discriminate; now intros [= <-].
Qed.

(** ** Path normalisation *)

Lemma normalize_step_kept (stack : list jsstring) (seg : jsstring) :
  kept_segment seg = true -> normalize_step stack seg = seg :: stack.
Proof.
  unfold kept_segment, normalize_step. intros H.
  apply andb_prop in H as [H H2]. apply andb_prop in H as [H0 H1].
  apply negb_true_iff in H0, H1, H2. now rewrite H0, H1, H2.
Qed.

Lemma plain_name_kept (name : jsstring) :
  plain_name name = true -> kept_segment name = true.
Proof.
  unfold plain_name, kept_segment. intros H.
  apply andb_prop in H as [H H2]. apply andb_prop in H as [H H1].
  apply andb_prop in H as [H0 _]. now rewrite H0, H1, H2.
Qed.

Lemma plain_name_no_slash (name : jsstring) :
  plain_name name = true -> ~ In CHAR_FORWARD_SLASH name.
Proof.
  unfold plain_name. intros H Hin.
  apply andb_prop in H as [H _]. apply andb_prop in H as [H _].
  apply andb_prop in H as [_ H]. apply negb_true_iff in H.
  assert (existsb (N.eqb CHAR_FORWARD_SLASH) name = true) as E.
  { apply existsb_exists. exists CHAR_FORWARD_SLASH. split; [assumption|].
    apply N.eqb_refl. }
  congruence.
Qed.

Lemma plain_name_nonempty (name : jsstring) :
  plain_name name = true -> name <> [].
Proof. intros H ->. discriminate. Qed.

Lemma normalize_snoc (segs : list jsstring) (name : jsstring) :
  kept_segment name = true ->
  normalize (segs ++ [name]) = normalize segs ++ [name].
Proof.
  intros Hk. unfold normalize. rewrite fold_left_app. simpl.
  now rewrite normalize_step_kept.
Qed.

Lemma normalize_stack_kept (segs stack : list jsstring) :
  forallb kept_segment stack = true ->
  forallb kept_segment (fold_left normalize_step segs stack) = true.
Proof.
  revert stack. induction segs as [|seg segs IH]; simpl; intros stack Hs;
    [assumption|].
  apply IH. unfold normalize_step.
  destruct (str_eqb seg [] || str_eqb seg (lit ".")) eqn:E1; [assumption|].
  destruct (str_eqb seg (lit "..")) eqn:E2.
  - destruct stack as [|x stack]; simpl in *; [reflexivity|].
    now apply andb_prop in Hs as [_ Hs].
  - simpl. rewrite Hs. unfold kept_segment.
    apply orb_false_elim in E1 as [E0 E1]. now rewrite E0, E1, E2.
Qed.

Lemma fold_normalize_rev (stack : list jsstring) :
  forallb kept_segment stack = true ->
  fold_left normalize_step (List.rev stack) [] = stack.
Proof.
  induction stack as [|x stack IH]; simpl; intros Hs; [reflexivity|].
  apply andb_prop in Hs as [Hx Hs].
  rewrite fold_left_app. simpl. rewrite (IH Hs).
  now apply normalize_step_kept.
Qed.

(** Normalising a normalised path changes nothing. *)
Lemma normalize_idempotent (segs : list jsstring) :
  normalize (normalize segs) = normalize segs.
Proof.
  unfold normalize. rewrite fold_normalize_rev; [reflexivity|].
  now apply normalize_stack_kept.
Qed.

Lemma normalize_normalize_snoc (segs : list jsstring) (name : jsstring) :
  kept_segment name = true ->
  normalize (normalize segs ++ [name]) = normalize segs ++ [name].
Proof.
  intros Hk. now rewrite normalize_snoc, normalize_idempotent.
Qed.

Lemma ends_with_slash_no_slash (a name : jsstring) :
  name <> [] -> ~ In CHAR_FORWARD_SLASH name ->
  ends_with_slash (a ++ name) = false.
Proof.
  intros Hne Hn. unfold ends_with_slash. rewrite rev_app_distr.
  destruct (List.rev name) as [|c r] eqn:E.
  - apply (f_equal (@List.rev N)) in E. rewrite rev_involutive in E.
    simpl in E. contradiction.
  - simpl. apply N.eqb_neq. intros ->. apply Hn.
    apply in_rev. rewrite E. now left.
Qed.

Lemma memoriesDir_normal (dirname : path) :
  memoriesDir dirname = normalize (dirname ++ [lit "anhkiniem"]).
Proof. reflexivity. Qed.

(** For a plain name, [path.join(__dirname, 'anhkiniem', name)] is the
    entry [name] of the storage directory. *)
Lemma path_join_storage_plain (dirname : path) (name : jsstring) :
  plain_name name = true ->
  path_join dirname [lit "anhkiniem"; name] = (memoriesDir dirname ++ [name], false).
Proof.
  intros Hp. unfold path_join.
  pose proof (plain_name_nonempty name Hp) as Hne.
  pose proof (plain_name_no_slash name Hp) as Hns.
  replace (filter (fun a => negb (str_eqb a [])) [lit "anhkiniem"; name])
    with [lit "anhkiniem"; name]
    by (simpl; now rewrite (str_eqb_neq name []) by assumption).
  change (join (lit "/") [lit "anhkiniem"; name])
    with (lit "anhkiniem" ++ CHAR_FORWARD_SLASH :: name).
  f_equal.
  - rewrite split_app_sep, (split_without _ name Hns).
    change (split CHAR_FORWARD_SLASH (lit "anhkiniem")) with [lit "anhkiniem"].
    rewrite memoriesDir_normal, app_assoc.
    apply normalize_snoc. now apply plain_name_kept.
  - change (lit "anhkiniem" ++ CHAR_FORWARD_SLASH :: name)
      with ((lit "anhkiniem" ++ [CHAR_FORWARD_SLASH]) ++ name).
    now apply ends_with_slash_no_slash.
Qed.

(** The same for [path.join(memoriesDir, name)]. *)
Lemma path_join_entry_plain (dirname : path) (name : jsstring) :
  plain_name name = true ->
  path_join (memoriesDir dirname) [name] = (memoriesDir dirname ++ [name], false).
Proof.
  intros Hp. unfold path_join.
  pose proof (plain_name_nonempty name Hp) as Hne.
  pose proof (plain_name_no_slash name Hp) as Hns.
  replace (filter (fun a => negb (str_eqb a [])) [name]) with [name]
    by (simpl; now rewrite (str_eqb_neq name []) by assumption).
  simpl join.
  f_equal.
  - rewrite (split_without _ name Hns), memoriesDir_normal.
    apply normalize_normalize_snoc. now apply plain_name_kept.
  - now apply (ends_with_slash_no_slash []).
Qed.

Lemma ends_with_slash_app (a b : jsstring) :
  b <> [] -> ends_with_slash (a ++ b) = ends_with_slash b.
Proof.
  intros Hb. unfold ends_with_slash. rewrite rev_app_distr.
  destruct (List.rev b) as [|c r] eqn:E; [|reflexivity].
  apply (f_equal (@List.rev N)) in E. rewrite rev_involutive in E.
  simpl in E. contradiction.
Qed.

Lemma joined_storage_name (name : jsstring) :
  name <> [] ->
  join (lit "/") (filter (fun a => negb (str_eqb a [])) [lit "anhkiniem"; name])
  = (lit "anhkiniem" ++ [CHAR_FORWARD_SLASH]) ++ name.
Proof.
  intros Hne.
  replace (filter (fun a => negb (str_eqb a [])) [lit "anhkiniem"; name])
    with [lit "anhkiniem"; name]
    by (simpl; now rewrite (str_eqb_neq name []) by assumption).
  reflexivity.
Qed.

(** The answer of [path.join] keeps a trailing separator exactly when the
    name has one. *)
Lemma path_join_storage_slash (dirname : path) (name : jsstring) :
  snd (path_join dirname [lit "anhkiniem"; name]) = ends_with_slash name.
Proof.
  destruct name as [|c name]; [reflexivity|].
  unfold path_join. cbn [snd].
  rewrite joined_storage_name by discriminate.
  apply ends_with_slash_app. discriminate.
Qed.

(** The segments that [path.join] normalises for a delete request. *)
Lemma delete_target_segments (dirname : path) (name : jsstring) :
  delete_target dirname name
  = normalize (dirname ++ lit "anhkiniem" :: split CHAR_FORWARD_SLASH name).
Proof.
  unfold delete_target, path_join. cbn [fst].
  destruct name as [|c name].
  - unfold normalize. simpl filter. simpl join.
    change (split CHAR_FORWARD_SLASH (lit "anhkiniem")) with [lit "anhkiniem"].
    change (split CHAR_FORWARD_SLASH []) with [@nil N].
    now rewrite !fold_left_app.
  - rewrite joined_storage_name by discriminate.
    rewrite <- app_assoc. cbn [app].
    rewrite split_app_sep.
    change (split CHAR_FORWARD_SLASH (lit "anhkiniem")) with [lit "anhkiniem"].
    reflexivity.
Qed.

(** Segments that never climb above their start leave what lies below the
    start of the stack alone. *)
Lemma stays_below_fold (segs loc base : list jsstring) :
  stays_below (List.length loc) segs = true ->
  fold_left normalize_step segs (loc ++ base)
  = fold_left normalize_step segs loc ++ base.
Proof.
  revert loc. induction segs as [|seg segs IH]; intros loc H; [reflexivity|].
  cbn [fold_left]. cbn [stays_below] in H.
  assert (forall stack,
             normalize_step stack seg
             = if str_eqb seg [] || str_eqb seg (lit ".") then stack
               else if str_eqb seg (lit "..") then tl stack
               else seg :: stack) as Hstep by reflexivity.
  rewrite !Hstep.
  destruct (str_eqb seg [] || str_eqb seg (lit ".")); [now apply IH|].
  destruct (str_eqb seg (lit "..")).
  - destruct loc as [|x loc]; [discriminate|]. now apply IH.
  - now apply (IH (seg :: loc)).
Qed.

Lemma delete_target_inside (dirname : path) (name : jsstring) :
  stays_inside name = true ->
  delete_target dirname name
  = memoriesDir dirname
    ++ List.rev (fold_left normalize_step (split CHAR_FORWARD_SLASH name) []).
Proof.
  intros Hin. rewrite delete_target_segments, memoriesDir_normal.
  unfold normalize.
  change (dirname ++ lit "anhkiniem" :: split CHAR_FORWARD_SLASH name)
    with (dirname ++ [lit "anhkiniem"] ++ split CHAR_FORWARD_SLASH name).
  rewrite app_assoc, fold_left_app.
  pose proof (stays_below_fold (split CHAR_FORWARD_SLASH name) []
                (fold_left normalize_step (dirname ++ [lit "anhkiniem"]) [])
                Hin) as E.
  cbn [app] in E. rewrite E.
  now rewrite rev_app_distr.
Qed.

(** ** Deletion *)

Section DeleterFacts.
Variable dirname : path.

(** The handler looks at one path only, the one [path.join] computes,
    and every entry under another path is kept. *)
Lemma delete_keeps_other_paths (fs : filesystem) (name : jsstring)
      (e : path * node) :
  In e fs ->
  fst e <> fst (path_join dirname [lit "anhkiniem"; name]) ->
  In e (snd (delete dirname fs name)).
Proof.
  intros Hin Hne. unfold delete.
  destruct (negb (existsSync fs _)); [assumption|].
  destruct (unlinkSync fs _) as [fs'|] eqn:E; [|assumption].
  apply unlinkSync_removes in E. subst fs'. now apply fs_remove_keeps.
Qed.

Lemma delete_only_removes (fs : filesystem) (name : jsstring)
      (e : path * node) :
  In e (snd (delete dirname fs name)) -> In e fs.
Proof.
  unfold delete.
  destruct (negb (existsSync fs _)); [easy|].
  destruct (unlinkSync fs _) as [fs'|] eqn:E; [|easy].
  apply unlinkSync_removes in E. subst fs'. simpl.
  unfold fs_remove. intros H. now apply filter_In in H.
Qed.

(** C3, as the code has it.  The handler rejects no name.  Whatever the
    name, it acts on the path that [path.join] makes of it: a regular file
    found there (the name not ending in a separator) is removed and the
    answer is success, wherever that path lies; every entry under another
    path is kept and nothing is added.  For a name whose ['..'] segments
    never climb above the storage directory, that path lies at or below
    the storage directory. *)
Theorem delete_joins_without_check (fs : filesystem) (name : jsstring) :
  (forall st,
      fs_find fs (delete_target dirname name) = Some (File st) ->
      ends_with_slash name = false ->
      delete dirname fs name
      = (mk_response 200 (Success MSG_DELETED),
         fs_remove fs (delete_target dirname name)))
  /\ (forall e : path * node,
        In e fs -> fst e <> delete_target dirname name ->
        In e (snd (delete dirname fs name)))
  /\ (forall e : path * node, In e (snd (delete dirname fs name)) -> In e fs)
  /\ (stays_inside name = true ->
      exists rest, delete_target dirname name = memoriesDir dirname ++ rest).
Proof.
  repeat split.
  - intros st Hfile Hslash. unfold delete, existsSync, unlinkSync.
    rewrite path_join_storage_slash, Hslash.
    fold (delete_target dirname name). now rewrite Hfile.
  - intros e Hin Hne. now apply delete_keeps_other_paths.
  - apply delete_only_removes.
  - intros Hin. eexists. now apply delete_target_inside.
Qed.

Lemma delete_plain (fs : filesystem) (name : jsstring) :
  plain_name name = true ->
  delete dirname fs name =
  match fs_find fs (memoriesDir dirname ++ [name]) with
  | Some (File _) =>
      (mk_response 200 (Success MSG_DELETED),
       fs_remove fs (memoriesDir dirname ++ [name]))
  | Some (Dir _) => (mk_response 500 (Failure MSG_DELETE_FAILED), fs)
  | Some Dangling | None => (mk_response 404 (Failure MSG_NOT_FOUND), fs)
  end.
Proof.
  intros Hp. unfold delete. rewrite (path_join_storage_plain dirname name Hp).
  unfold existsSync, unlinkSync. simpl.
  now destruct (fs_find fs _) as [[st|st|]|].
Qed.

(** C5, as the code has it.  For a name that is one path segment, the
    answer is NotFound (404) exactly when neither a file nor a directory
    of that name is in the storage directory; a regular file of that
    name is removed with a success answer, after which the same request
    is answered NotFound. *)
Theorem delete_plain_not_found_iff (fs : filesystem) (name : jsstring) :
  plain_name name = true ->
  (fst (delete dirname fs name) = mk_response 404 (Failure MSG_NOT_FOUND)
   <-> entry_exists fs (memoriesDir dirname ++ [name]) = false)
  /\ (forall st,
        fs_find fs (memoriesDir dirname ++ [name]) = Some (File st) ->
        delete dirname fs name
        = (mk_response 200 (Success MSG_DELETED),
           fs_remove fs (memoriesDir dirname ++ [name]))
        /\ delete dirname (fs_remove fs (memoriesDir dirname ++ [name])) name
           = (mk_response 404 (Failure MSG_NOT_FOUND),
              fs_remove fs (memoriesDir dirname ++ [name]))).
Proof.
  intros Hp. split.
  - rewrite (delete_plain fs name Hp). unfold entry_exists.
    destruct (fs_find fs _) as [[st|st|]|]; simpl; split;
      intros H; try reflexivity; discriminate.
  - intros st Hfile. rewrite !(delete_plain _ name Hp).
    rewrite Hfile, fs_find_remove_same. now split.
Qed.

(** C10.  When the answer is 404, the filesystem after the request is
    the filesystem before it. *)
Theorem delete_not_found_unchanged (fs : filesystem) (name : jsstring) :
  status (fst (delete dirname fs name)) = 404 ->
  snd (delete dirname fs name) = fs.
Proof.
  unfold delete.
  destruct (negb (existsSync fs _)); [reflexivity|].
  destruct (unlinkSync fs _); simpl; [discriminate | reflexivity].
Qed.

End DeleterFacts.

(** ** Upload *)


Lemma Number_toString_chars (n : Z) (c : N) :
  In c (Number_toString n) -> c = CHAR_HYPHEN \/ (48 <= c <= 57)%N.
Proof.
  unfold Number_toString. destruct (n <? 0); simpl; intros H.
  - destruct H as [<- | H]; [now left|]. right.
    now apply digits_of_uint_digit in H.
  - right. now apply digits_of_uint_digit in H.
Qed.




Lemma fileFilter_accepts (file : file_part) :
  fileFilter file = None <-> In (mimetype file) accepted_types.
Proof.
  unfold fileFilter.
  change accepted_types with (allowedImageTypes ++ allowedVideoTypes).
  rewrite in_app_iff, <- !includes_In.
  destruct (includes allowedImageTypes (mimetype file));
    destruct (includes allowedVideoTypes (mimetype file)); simpl;
    intuition congruence.
Qed.



Section AcceptorFacts.
Variable dirname : path.




End AcceptorFacts.

(** * The theorems at sample inputs *)

Lemma title_derivation_My_Photo_witness :
  memory_of sample_toLowerCase sample_toLocaleDateString script_dir sample_fs
            MY_PHOTO_PNG
  = Some (mk_memory MY_PHOTO_PNG (lit "image") TITLE_MY_PHOTO (lit "100") 10 100).
Proof.
  apply (title_derivation_My_Photo sample_toLowerCase
           sample_toLocaleDateString script_dir sample_fs (Stats.mk 10 100)).
  vm_compute. reflexivity.
Defined.

Lemma delete_joins_without_check_witness :
  delete script_dir sample_fs (lit "album/../1700000000000-123456789-My_Photo.png")
  = (mk_response 200 (Success MSG_DELETED),
     fs_remove sample_fs (storage ++ [MY_PHOTO_PNG]))
  /\ stays_inside (lit "album/x.png") = true
  /\ exists rest,
       delete_target script_dir (lit "album/x.png")
       = memoriesDir script_dir ++ rest.
Proof.
  split; [|split; [reflexivity|]].
  - apply (proj1 (delete_joins_without_check script_dir sample_fs
                    (lit "album/../1700000000000-123456789-My_Photo.png"))
                 (Stats.mk 10 100)); reflexivity.
  - apply (proj2 (proj2 (proj2
             (delete_joins_without_check script_dir sample_fs
                (lit "album/x.png"))))).
    reflexivity.
Defined.


Lemma delete_plain_not_found_iff_witness :
  plain_name MY_PHOTO_PNG = true
  /\ delete script_dir sample_fs MY_PHOTO_PNG
     = (mk_response 200 (Success MSG_DELETED),
        fs_remove sample_fs (memoriesDir script_dir ++ [MY_PHOTO_PNG]))
  /\ delete script_dir (fs_remove sample_fs (memoriesDir script_dir ++ [MY_PHOTO_PNG]))
            MY_PHOTO_PNG
     = (mk_response 404 (Failure MSG_NOT_FOUND),
        fs_remove sample_fs (memoriesDir script_dir ++ [MY_PHOTO_PNG])).
Proof.
  split; [reflexivity|].
  apply (proj2 (delete_plain_not_found_iff script_dir sample_fs MY_PHOTO_PNG eq_refl)
               (Stats.mk 10 100)).
  vm_compute. reflexivity.
Defined.

Lemma list_newest_first_witness :
  storage_dir_usable script_dir three_files_fs = true
  /\ entry_times script_dir three_files_fs
     = [(lit "1700000000200-7-b.mp4", 200);
        (lit "1700000000300-8-c.txt", 300);
        (MY_PHOTO_PNG, 100)]
  /\ map (fun m => (filename m, created m))
         (listed (api_memories sample_toLowerCase sample_toLocaleDateString
                               script_dir three_files_fs))
     = [(lit "1700000000300-8-c.txt", 300);
        (lit "1700000000200-7-b.mp4", 200);
        (MY_PHOTO_PNG, 100)]
  /\ exists items,
       api_memories sample_toLowerCase sample_toLocaleDateString script_dir
                    three_files_fs
       = mk_response 200 (Memories items)
       /\ newest_first items
       /\ Permutation (map (fun m => (filename m, created m)) items)
                      (entry_times script_dir three_files_fs).
Proof.
  split; [reflexivity|]. split; [reflexivity|]. split; [reflexivity|].
  apply (list_newest_first sample_toLowerCase sample_toLocaleDateString
           script_dir three_files_fs).
  reflexivity.
Defined.


Lemma list_empty_or_absent_witness :
  api_memories sample_toLowerCase sample_toLocaleDateString script_dir no_storage_fs
  = mk_response 200 (Memories [])
  /\ api_memories sample_toLowerCase sample_toLocaleDateString script_dir empty_storage_fs
     = mk_response 200 (Memories []).
Proof.
  split.
  - apply (list_empty_or_absent sample_toLowerCase sample_toLocaleDateString
             script_dir no_storage_fs).
    left. reflexivity.
  - apply (list_empty_or_absent sample_toLowerCase sample_toLocaleDateString
             script_dir empty_storage_fs).
    right. split; [exists dstats|]; reflexivity.
Defined.

Lemma list_skips_unreadable_witness :
  fs_find sample_fs (memoriesDir script_dir) = Some (Dir dstats)
  /\ readable script_dir sample_fs (lit "broken") = false
  /\ exists items,
       api_memories sample_toLowerCase sample_toLocaleDateString script_dir sample_fs
       = mk_response 200 (Memories items)
       /\ Permutation (map filename items)
                      (filter (readable script_dir sample_fs)
                              (children sample_fs (memoriesDir script_dir)))
       /\ forall m, In m items ->
            statSync sample_fs (path_join (memoriesDir script_dir) [filename m])
            = Some (Stats.mk (size m) (created m))
            /\ type m = classify (substring1 (toLowerCase sample_toLowerCase
                                                           (path_extname (filename m))))
            /\ title m = TITLE_PREFIX ++ recover_title (filename m)
            /\ date m = sample_toLocaleDateString (created m).
Proof.
  split; [reflexivity|]. split; [reflexivity|].
  apply (list_skips_unreadable sample_toLowerCase sample_toLocaleDateString
           script_dir sample_fs dstats).
  reflexivity.
Defined.

Lemma delete_not_found_unchanged_witness :
  status (fst (delete script_dir sample_fs (lit "missing.png"))) = 404
  /\ snd (delete script_dir sample_fs (lit "missing.png")) = sample_fs.
Proof.
  split; [reflexivity|].
  apply (delete_not_found_unchanged script_dir sample_fs (lit "missing.png")).
  reflexivity.
Defined.

(** * Where the code departs from the specification *)

(** C3.  The name ['../server.js'] has a traversal segment; the request is
    answered 200 and the script, which lies outside the storage directory,
    is gone afterwards. *)
Lemma delete_escapes_storage_directory :
  fs_find sample_fs (script_dir ++ [lit "server.js"]) = Some (File (Stats.mk 9000 5))
  /\ fst (delete script_dir sample_fs (lit "../server.js"))
     = mk_response 200 (Success MSG_DELETED)
  /\ fs_find (snd (delete script_dir sample_fs (lit "../server.js")))
             (script_dir ++ [lit "server.js"]) = None.
Proof. repeat split; vm_compute; reflexivity. Qed.


(** C5.  No entry of the storage directory is called
    ['x/../1700000000000-123456789-My_Photo.png'], yet the request with
    that name is answered with success and removes the photo; and the
    entry ['album'], a directory, is answered 500 and stays. *)
Lemma delete_resolves_name_as_path :
  let name := lit "x/../1700000000000-123456789-My_Photo.png" in
  ~ In name (children sample_fs storage)
  /\ fs_find sample_fs (storage ++ [name]) = None
  /\ delete script_dir sample_fs name
     = (mk_response 200 (Success MSG_DELETED),
        fs_remove sample_fs (storage ++ [MY_PHOTO_PNG]))
  /\ In (lit "album") (children sample_fs storage)
  /\ delete script_dir sample_fs (lit "album")
     = (mk_response 500 (Failure MSG_DELETE_FAILED), sample_fs).
Proof.
  repeat split; try (vm_compute; reflexivity).
  - vm_compute. intuition discriminate.
  - vm_compute. tauto.
Qed.


(** * Further properties of the handlers *)

(** ** The filename generator *)

Lemma app_sep_inj (sep : N) (a a' b b' : jsstring) :
  ~ In sep a -> ~ In sep a' ->
  a ++ sep :: b = a' ++ sep :: b' -> a = a' /\ b = b'.
Proof.
  revert a'. induction a as [|x a IH]; intros [|y a'] Ha Ha' H; simpl in *.
  - injection H as <-. now split.
  - injection H as <- _. exfalso. apply Ha'. now left.
  - injection H as -> _. exfalso. apply Ha. now left.
  - injection H as <- H.
    assert (a = a' /\ b = b') as [-> ->] by (apply IH; tauto).
    now split.
Qed.

Lemma digits_of_uint_inj (u v : Decimal.uint) :
  digits_of_uint u = digits_of_uint v -> u = v.
Proof.
  revert v. induction u; intros [] H; simpl in H;
    try discriminate; try reflexivity;
    injection H as H; f_equal; now apply IHu.
Qed.

Lemma Number_toString_inj (n m : Z) :
  0 <= n -> 0 <= m -> Number_toString n = Number_toString m -> n = m.
Proof.
  intros Hn Hm. unfold Number_toString.
  destruct (n <? 0) eqn:En; [apply Z.ltb_lt in En; lia|].
  destruct (m <? 0) eqn:Em; [apply Z.ltb_lt in Em; lia|].
  intros H. apply digits_of_uint_inj, DecimalN.Unsigned.to_uint_inj in H.
  lia.
Qed.

(** Two uploads get the same storage name only when the clock value, the
    random part and the sanitised client name all coincide: a different
    millisecond or a different random draw always gives a different name,
    whatever the client names are. *)
Theorem storage_filename_injective (now rnd now' rnd' : Z) (o o' : jsstring) :
  0 <= now -> 0 <= rnd -> 0 <= now' -> 0 <= rnd' ->
  storage_filename now rnd o = storage_filename now' rnd' o' ->
  now = now' /\ rnd = rnd' /\ replace_ws o = replace_ws o'.
Proof.
  intros Hn Hr Hn' Hr'. rewrite !storage_filename_shape. intros H.
  apply app_sep_inj in H as [H1 H];
    try now apply Number_toString_no_hyphen.
  apply app_sep_inj in H as [H2 H];
    try now apply Number_toString_no_hyphen.
  repeat split; try assumption; now apply Number_toString_inj.
Qed.

Lemma is_space_printable (c : N) : (33 <= c <= 159)%N -> is_space c = false.
Proof.
  intros Hc. unfold is_space.
  replace (c <=? 13)%N with false by (symmetry; apply N.leb_gt; lia).
  replace (8192 <=? c)%N with false by (symmetry; apply N.leb_gt; lia).
  repeat match goal with
         | |- context [(c =? ?k)%N] =>
             replace (c =? k)%N with false by (symmetry; apply N.eqb_neq; lia)
         end.
  now rewrite andb_false_r.
Qed.

Lemma replace_ws_from_no_space (b : bool) (s : jsstring) :
  no_space (replace_ws_from b s) = true.
Proof.
  revert b. induction s as [|c s IH]; intros b; simpl; [reflexivity|].
  destruct (is_space c) eqn:E.
  - destruct b; [apply IH|]. simpl. now rewrite IH.
  - simpl. now rewrite E, IH.
Qed.

Lemma Number_toString_no_space (n : Z) : no_space (Number_toString n) = true.
Proof.
  unfold no_space. apply forallb_forall. intros c Hin.
  apply negb_true_iff, is_space_printable.
  apply Number_toString_chars in Hin as [-> | Hin];
    unfold CHAR_HYPHEN; lia.
Qed.

(** A storage name never contains white space, whatever the client name. *)
Theorem storage_filename_no_space (now rnd : Z) (o : jsstring) :
  no_space (storage_filename now rnd o) = true.
Proof.
  rewrite storage_filename_shape. unfold no_space.
  rewrite forallb_app. simpl. rewrite forallb_app. simpl.
  fold (no_space (Number_toString now)). fold (no_space (Number_toString rnd)).
  rewrite !Number_toString_no_space.
  fold (no_space (replace_ws o)). unfold replace_ws.
  now rewrite replace_ws_from_no_space.
Qed.

Lemma replace_ws_from_id (s : jsstring) :
  no_space s = true -> replace_ws_from false s = s.
Proof.
  induction s as [|c s IH]; simpl; intros H; [reflexivity|].
  apply andb_prop in H as [Hc Hs]. apply negb_true_iff in Hc.
  now rewrite Hc, IH.
Qed.

(** Sanitising leaves a name without white space as it is, never makes a
    name longer, and sanitising twice is sanitising once. *)
Theorem replace_ws_stable (s : jsstring) :
  (no_space s = true -> replace_ws s = s)
  /\ (List.length (replace_ws s) <= List.length s)%nat
  /\ replace_ws (replace_ws s) = replace_ws s.
Proof.
  split; [apply replace_ws_from_id|]. split.
  - unfold replace_ws. generalize false.
    induction s as [|c s IH]; intros b; simpl; [lia|].
    pose proof (IH true). pose proof (IH false).
    destruct (is_space c); [destruct b|]; simpl; lia.
  - apply replace_ws_from_id. apply replace_ws_from_no_space.
Qed.

(** ** Titles *)

Lemma split_length (sep : N) (s : jsstring) :
  List.length (split sep s) = S (count_occ N.eq_dec s sep).
Proof.
  induction s as [|c s IH]; simpl; [reflexivity|].
  destruct (N.eqb_spec c sep) as [->|Hne].
  - destruct (N.eq_dec sep sep); [|contradiction]. simpl. now rewrite IH.
  - destruct (N.eq_dec c sep); [contradiction|].
    destruct (split sep s) as [|h t] eqn:E; [now apply split_nonempty in E|].
    simpl in *. assumption.
Qed.

Lemma hd_split_no_sep (sep : N) (s : jsstring) (d : jsstring) :
  ~ In sep (hd d (split sep s)).
Proof.
  induction s as [|c s IH]; simpl; [tauto|].
  destruct (N.eqb_spec c sep) as [->|Hne]; simpl; [tauto|].
  destruct (split sep s) as [|h t] eqn:E; [now apply split_nonempty in E|].
  simpl in *. intros [H|H]; [contradiction | now apply IH].
Qed.

Section TitleFacts.
Variable unicode_toLowerCase : jsstring -> jsstring.
Variable toLocaleDateString : Z -> jsstring.
Variable dirname : path.

(** A file whose name has fewer than two hyphens (one that the generator
    did not name) is listed with the bare prefix ['Kỷ niệm '] as title. *)
Theorem title_of_foreign_name (fs : filesystem) (name : jsstring) (m : memory) :
  (hyphens name <= 1)%nat ->
  memory_of unicode_toLowerCase toLocaleDateString dirname fs name = Some m ->
  title m = TITLE_PREFIX.
Proof.
  intros Hh. unfold memory_of.
  destruct (statSync fs _) as [stats|]; [|discriminate].
  intros [= <-]. simpl. unfold recover_title, slice_from.
  rewrite skipn_all2 by (rewrite split_length; unfold hyphens in Hh; lia).
  reflexivity.
Qed.

(** The title of a listed item never contains a dot. *)
Theorem title_has_no_dot (fs : filesystem) (name : jsstring) (m : memory) :
  memory_of unicode_toLowerCase toLocaleDateString dirname fs name = Some m ->
  ~ In CHAR_DOT (title m).
Proof.
  unfold memory_of.
  destruct (statSync fs _) as [stats|]; [|discriminate].
  intros [= <-]. cbn [title]. intros Hin.
  change (In CHAR_DOT (TITLE_PREFIX ++ recover_title name)) in Hin.
  apply in_app_or in Hin as [Hin | Hin].
  - unfold TITLE_PREFIX, CHAR_DOT in Hin. simpl in Hin.
    intuition discriminate.
  - now apply hd_split_no_sep in Hin.
Qed.

End TitleFacts.

(** ** Entries of a directory *)

Lemma child_name_spec (p q : path) (n : jsstring) :
  child_name p q = Some n <-> q = p ++ [n].
Proof.
  revert q. induction p as [|a p IH]; intros q; simpl.
  - destruct q as [|b [|c q]]; split; intros H; try discriminate;
      now (injection H as <- || injection H as ->).
  - destruct q as [|b q]; [split; discriminate|].
    destruct (str_eqb a b) eqn:E.
    + apply str_eqb_eq in E. subst b. rewrite IH. split; intros H.
      * now subst.
      * now injection H.
    + split; [discriminate|]. intros H. injection H as -> _.
      now rewrite str_eqb_refl in E.
Qed.


Lemma fs_find_Some_In (fs : filesystem) (q : path) (x : node) :
  fs_find fs q = Some x -> In (q, x) fs.
Proof.
  unfold fs_find. destruct (find _ fs) as [[q' x']|] eqn:E; [|discriminate].
  intros [= <-]. apply find_some in E as [Hin Hq]. simpl in Hq.
  apply path_eqb_eq in Hq. now subst.
Qed.


Lemma fs_find_app (fs fs2 : filesystem) (q : path) :
  fs_find (fs ++ fs2) q
  = match fs_find fs q with
    | Some x => Some x
    | None => fs_find fs2 q
    end.
Proof.
  unfold fs_find. induction fs as [|[r x] fs IH]; simpl; [reflexivity|].
  destruct (path_eqb r q); [reflexivity | assumption].
Qed.


Section ListedItems.
Variable unicode_toLowerCase : jsstring -> jsstring.
Variable toLocaleDateString : Z -> jsstring.
Variable dirname : path.

Lemma listed_from_entries (fs : filesystem) (m : memory) :
  In m (listed (api_memories unicode_toLowerCase toLocaleDateString dirname fs)) ->
  In (filename m) (children fs (memoriesDir dirname))
  /\ memory_of unicode_toLowerCase toLocaleDateString dirname fs (filename m)
     = Some m.
Proof.
  unfold api_memories, readdirSync.
  destruct (negb (existsSync fs (memoriesDir dirname, false)));
    [intros []|].
  destruct (fs_find fs (memoriesDir dirname)) as [[st|st|]|]; try intros [].
  unfold listed. cbn [payload]. intros Hin.
  apply (Permutation_in _ (sort_by_perm by_created _)) in Hin.
  apply In_filter_Boolean, in_map_iff in Hin as [n [Hm Hn]].
  assert (filename m = n) as ->.
  { unfold memory_of in Hm. destruct (statSync fs _); [|discriminate].
    now injection Hm as <-. }
  now split.
Qed.

(** Every item of a listing names an entry of the storage directory and
    reports the size and the creation time that [statSync] gives for it;
    its date is the formatted creation time and its title is derived from
    its filename. *)
Theorem listed_item_fields (fs : filesystem) (m : memory) :
  In m (listed (api_memories unicode_toLowerCase toLocaleDateString dirname fs)) ->
  In (filename m) (children fs (memoriesDir dirname))
  /\ statSync fs (path_join (memoriesDir dirname) [filename m])
     = Some (Stats.mk (size m) (created m))
  /\ date m = toLocaleDateString (created m)
  /\ title m = TITLE_PREFIX ++ recover_title (filename m).
Proof.
  intros Hin. apply listed_from_entries in Hin as [Hc Hm].
  split; [assumption|]. unfold memory_of in Hm.
  destruct (statSync fs _) as [[sz bt]|]; [|discriminate].
  injection Hm as <-. cbn [size created date title filename].
  repeat split; reflexivity.
Qed.

(** A file whose name has no dot is listed with type ['unknown']. *)
Theorem type_without_extension (fs : filesystem) (name : jsstring) (m : memory) :
  dotless name ->
  memory_of unicode_toLowerCase toLocaleDateString dirname fs name = Some m ->
  type m = lit "unknown".
Proof.
  intros Hd. unfold memory_of.
  destruct (statSync fs _) as [stats|]; [|discriminate].
  intros [= <-]. cbn [type]. now rewrite (path_extname_dotless name Hd).
Qed.

End ListedItems.

(** ** More on deletion *)

Section DeleterMore.
Variable dirname : path.

(** No request removes a directory: whatever the name, a path that is a
    directory before the request is the same directory after it.  In
    particular the storage directory survives every request. *)
Theorem delete_keeps_directories (fs : filesystem) (name : jsstring)
        (p : path) (st : Stats.t) :
  fs_find fs p = Some (Dir st) ->
  fs_find (snd (delete dirname fs name)) p = Some (Dir st).
Proof.
  intros Hdir. unfold delete.
  destruct (negb (existsSync fs _)); [assumption|].
  destruct (unlinkSync fs _) as [fs'|] eqn:E; [|assumption].
  cbn [snd]. pose proof (unlinkSync_removes _ _ _ E) as ->.
  destruct (path_eqb p (fst (path_join dirname [lit "anhkiniem"; name]))) eqn:Ep.
  - apply path_eqb_eq in Ep. unfold unlinkSync in E. rewrite <- Ep, Hdir in E.
    discriminate.
  - rewrite fs_find_remove_other; [assumption|].
    intros ->. now rewrite path_eqb_refl in Ep.
Qed.

(** A name that ends in a separator never removes anything: the answer is
    404 or 500 and the filesystem stays as it is. *)
Theorem delete_trailing_separator (fs : filesystem) (name : jsstring) :
  ends_with_slash name = true ->
  snd (delete dirname fs name) = fs
  /\ (status (fst (delete dirname fs name)) = 404
      \/ status (fst (delete dirname fs name)) = 500).
Proof.
  intros Hs.
  assert (name <> []) as Hne by (intros ->; discriminate).
  unfold delete, path_join. rewrite (joined_storage_name name Hne).
  rewrite (ends_with_slash_app _ name Hne), Hs.
  unfold existsSync, unlinkSync. cbn [fst snd].
  destruct (fs_find fs _) as [[st|st|]|]; cbn; auto.
Qed.

(** What a name of the shape ['../x'] does: for every plain [x] that is a
    regular file in the directory of the script, the request is answered
    with success and that file, a sibling of the storage directory, is
    removed. *)
Theorem delete_parent_escape (fs : filesystem) (x : jsstring) (st : Stats.t) :
  plain_name x = true ->
  fs_find fs (normalize dirname ++ [x]) = Some (File st) ->
  delete dirname fs (lit "../" ++ x)
  = (mk_response 200 (Success MSG_DELETED),
     fs_remove fs (normalize dirname ++ [x])).
Proof.
  intros Hp Hfile.
  pose proof (plain_name_nonempty x Hp) as Hne.
  pose proof (plain_name_no_slash x Hp) as Hns.
  assert (path_join dirname [lit "anhkiniem"; lit "../" ++ x]
          = (normalize dirname ++ [x], false)) as Hjoin.
  { unfold path_join.
    rewrite joined_storage_name by (simpl; discriminate).
    f_equal.
    - change ((lit "anhkiniem" ++ [CHAR_FORWARD_SLASH]) ++ lit "../" ++ x)
        with (lit "anhkiniem" ++ CHAR_FORWARD_SLASH ::
              (lit ".." ++ CHAR_FORWARD_SLASH :: x)).
      rewrite !split_app_sep, (split_without _ x Hns).
      change (split CHAR_FORWARD_SLASH (lit "anhkiniem")) with [lit "anhkiniem"].
      change (split CHAR_FORWARD_SLASH (lit "..")) with [lit ".."].
      unfold normalize. rewrite !fold_left_app. cbn [fold_left].
      change (normalize_step (fold_left normalize_step dirname []) (lit "anhkiniem"))
        with (lit "anhkiniem" :: fold_left normalize_step dirname []).
      change (normalize_step (lit "anhkiniem" :: fold_left normalize_step dirname [])
                             (lit ".."))
        with (fold_left normalize_step dirname []).
      rewrite normalize_step_kept by now apply plain_name_kept.
      reflexivity.
    - rewrite app_assoc. now apply ends_with_slash_no_slash. }
  unfold delete.
  match goal with
  | |- context [path_join ?a ?b] =>
      replace (path_join a b) with (normalize dirname ++ [x], false)
        by (symmetry; exact Hjoin)
  end.
  unfold existsSync, unlinkSync. cbn [fst snd].
  now rewrite Hfile.
Qed.

End DeleterMore.

(** ** More on uploads *)

Lemma fs_find_replace (fs : filesystem) (p : path) (x y : node) :
  fs_find fs p = Some x ->
  fs_find (map (fun e => if path_eqb (fst e) p then (fst e, y) else e) fs) p
  = Some y.
Proof.
  unfold fs_find. induction fs as [|[q n] fs IH]; simpl; [discriminate|].
  destruct (path_eqb q p) eqn:E; simpl; rewrite E; [reflexivity | assumption].
Qed.

(** A write that succeeds leaves a regular file of the written size. *)
Lemma write_file_result (fs fs2 : filesystem) (fp : path * bool)
      (sz : N) (bt : Z) :
  write_file fs fp sz bt = Some fs2 ->
  exists stf, fs_find fs2 (fst fp) = Some (File stf) /\ Stats.size stf = sz.
Proof.
  unfold write_file. destruct (snd fp); [discriminate|].
  destruct (fs_find fs (removelast (fst fp))) as [[st|st|]|]; try discriminate.
  destruct (fst fp) as [|a p] eqn:Ep; [discriminate|].
  destruct (fs_find fs (a :: p)) as [[st'|st'|]|] eqn:Ef; try discriminate;
    intros [= <-].
  - eexists. split; [now apply (fs_find_replace fs (a :: p) (File st'))|].
    reflexivity.
  - eexists. split; [now apply fs_find_app_absent|]. reflexivity.
Qed.

Section AcceptorMore.
Variable dirname : path.

(** An answer 200 to an upload means that every check passed: the part
    has a filename and sits in field [memory], its type is an accepted
    one, it holds at most 20 MiB, the answer carries the generated name
    and the number of bytes sent, and afterwards a regular file of that
    size is found under that name in the storage directory. *)
Theorem upload_success_sound (env : upload_env) (fs fs' : filesystem)
        (part : option file_part) (r : response) :
  upload dirname env fs part = Some (r, fs') ->
  status r = 200 ->
  exists file,
    part = Some file
    /\ reaches_filter file = true
    /\ In (mimetype file) accepted_types
    /\ (bytes_sent file <= 20 * 1024 * 1024)%N
    /\ r = mk_response 200
             (Uploaded (storage_filename (now env) (rnd env) (originalname file))
                       MSG_UPLOADED (bytes_sent file))
    /\ exists stf,
         fs_find fs'
                 (fst (path_join (memoriesDir dirname)
                         [storage_filename (now env) (rnd env) (originalname file)]))
         = Some (File stf)
         /\ Stats.size stf = bytes_sent file.
Proof.
  unfold upload. destruct part as [file|]; [|intros [= <- _]; discriminate].
  destruct (str_eqb (originalname file) []) eqn:Hname;
    [intros [= <- _]; discriminate|].
  destruct (negb (str_eqb (fieldname file) (lit "memory"))) eqn:Hfield;
    [intros [= <- _]; discriminate|].
  destruct (fileFilter file) as [e|] eqn:Hfilter.
  { unfold fileFilter in Hfilter. destruct (_ || _); [discriminate|].
    injection Hfilter as <-. intros [= <- _]. discriminate. }
  destruct (destination dirname env fs) as [[dir fs1]|] eqn:Hdest;
    [|discriminate].
  assert (dir = memoriesDir dirname) as ->.
  { unfold destination in Hdest. destruct (negb _) in Hdest.
    - destruct (mkdirSync_recursive _ _ _); [|discriminate].
      now injection Hdest as <- _.
    - now injection Hdest as <- _. }
  intros Hres Hst.
  assert ((if (fileSize <=? bytes_sent file)%N then
             match write_file fs1
                     (path_join (memoriesDir dirname)
                        [storage_filename (now env) (rnd env) (originalname file)])
                     fileSize (file_birthtime env) with
             | Some fs2 =>
                 Some (error_middleware
                         (MulterError LIMIT_FILE_SIZE (lit "File too large")),
                       fs_remove fs2
                         (fst (path_join (memoriesDir dirname)
                                 [storage_filename (now env) (rnd env)
                                                   (originalname file)])))
             | None => Some (error_middleware (Error (write_error env)), fs1)
             end
           else
             match write_file fs1
                     (path_join (memoriesDir dirname)
                        [storage_filename (now env) (rnd env) (originalname file)])
                     (bytes_sent file) (file_birthtime env) with
             | Some fs2 =>
                 Some (mk_response 200
                         (Uploaded (storage_filename (now env) (rnd env)
                                                     (originalname file))
                                   MSG_UPLOADED (bytes_sent file)), fs2)
             | None => Some (error_middleware (Error (write_error env)), fs1)
             end) = Some (r, fs')) as Hbody.
  { destruct (fs_find fs1 _) as [[s0|s0|]|] in Hres;
      try discriminate; exact Hres. }
  clear Hres. destruct (fileSize <=? bytes_sent file)%N eqn:Hsize.
  { destruct (write_file fs1 _ _ _); injection Hbody as <- _; discriminate. }
  destruct (write_file fs1 _ _ _) as [fs2|] eqn:Hwrite;
    [|injection Hbody as <- _; discriminate].
  injection Hbody as <- <-. exists file.
  apply negb_false_iff in Hfield. apply N.leb_gt in Hsize.
  repeat split.
  - unfold reaches_filter. now rewrite Hname, Hfield.
  - now apply fileFilter_accepts.
  - unfold fileSize in Hsize. lia.
  - now apply write_file_result in Hwrite.
Qed.



End AcceptorMore.

(** ** Listing after an upload or a deletion *)


Lemma filter_perm {A : Type} (f : A -> bool) (l l' : list A) :
  Permutation l l' -> Permutation (filter f l) (filter f l').
Proof.
  induction 1 as [|x l l' _ IH|x y l|l l' l'' _ IH1 _ IH2]; simpl.
  - constructor.
  - destruct (f x); [now constructor | assumption].
  - destruct (f x), (f y); try reflexivity. apply perm_swap.
  - now rewrite IH1.
Qed.



Lemma app_last_inj (p : path) (a b : jsstring) :
  p ++ [a] = p ++ [b] -> a = b.
Proof. intros H. apply app_inv_head in H. now injection H. Qed.

Lemma children_remove (fs : filesystem) (p : path) (name : jsstring) :
  children (fs_remove fs (p ++ [name])) p
  = filter (fun n => negb (str_eqb n name)) (children fs p).
Proof.
  unfold children, fs_remove.
  induction fs as [|[q x] fs IH]; simpl; [reflexivity|].
  destruct (path_eqb q (p ++ [name])) eqn:E; simpl.
  - apply path_eqb_eq in E. subst q.
    replace (child_name p (p ++ [name])) with (Some name)
      by (symmetry; now apply child_name_spec).
    simpl. now rewrite str_eqb_refl.
  - rewrite IH, filter_app. f_equal.
    destruct (child_name p q) as [n|] eqn:En; [|reflexivity].
    apply child_name_spec in En. subst q. simpl.
    rewrite str_eqb_neq; [reflexivity|].
    intros ->. now rewrite path_eqb_refl in E.
Qed.

Lemma path_snoc_neq (p : path) (n : jsstring) : p <> p ++ [n].
Proof.
  intros H. apply (f_equal (@List.length jsstring)) in H.
  rewrite length_app in H. simpl in H. lia.
Qed.

Section ListAfter.
Variable unicode_toLowerCase : jsstring -> jsstring.
Variable toLocaleDateString : Z -> jsstring.
Variable dirname : path.

Lemma api_memories_dir (fs : filesystem) (st : Stats.t) :
  fs_find fs (memoriesDir dirname) = Some (Dir st) ->
  api_memories unicode_toLowerCase toLocaleDateString dirname fs
  = mk_response 200
      (Memories
         (sort_by by_created
            (filter_Boolean
               (map (memory_of unicode_toLowerCase toLocaleDateString dirname fs)
                    (children fs (memoriesDir dirname)))))).
Proof.
  intros Hdir. unfold api_memories, existsSync, readdirSync. cbn [fst snd].
  now rewrite Hdir.
Qed.

Lemma memory_of_plain (fs : filesystem) (n : jsstring) :
  plain_name n = true ->
  memory_of unicode_toLowerCase toLocaleDateString dirname fs n
  = match fs_find fs (memoriesDir dirname ++ [n]) with
    | Some (File stats) | Some (Dir stats) =>
        Some (mk_memory n
                (classify (substring1 (toLowerCase unicode_toLowerCase
                                                   (path_extname n))))
                (TITLE_PREFIX ++ recover_title n)
                (toLocaleDateString (Stats.birthtime stats))
                (Stats.size stats) (Stats.birthtime stats))
    | _ => None
    end.
Proof.
  intros Hp. unfold memory_of. rewrite (path_join_entry_plain dirname n Hp).
  unfold statSync. cbn [fst snd].
  now destruct (fs_find fs _) as [[s|s|]|].
Qed.

Lemma memory_of_filename (fs : filesystem) (n : jsstring) (m : memory) :
  memory_of unicode_toLowerCase toLocaleDateString dirname fs n = Some m ->
  filename m = n.
Proof.
  unfold memory_of. destruct (statSync fs _); [|discriminate].
  now intros [= <-].
Qed.

Lemma filter_Boolean_filter (fs : filesystem) (g : jsstring -> bool)
      (names : list jsstring) :
  filter_Boolean
    (map (memory_of unicode_toLowerCase toLocaleDateString dirname fs)
         (filter g names))
  = filter (fun m => g (filename m))
      (filter_Boolean
         (map (memory_of unicode_toLowerCase toLocaleDateString dirname fs)
              names)).
Proof.
  induction names as [|n names IH]; simpl; [reflexivity|].
  destruct (memory_of unicode_toLowerCase toLocaleDateString dirname fs n)
    as [m|] eqn:Em.
  - pose proof (memory_of_filename fs n m Em) as Hn. simpl.
    rewrite Hn. destruct (g n); simpl; now rewrite ?Em, IH.
  - destruct (g n); simpl; now rewrite ?Em, IH.
Qed.


(** After the successful deletion of a file, the listing holds the items
    listed before except the one of the deleted name.  (The entries of
    the storage directory are assumed to bear proper names.) *)
Theorem delete_then_list (fs : filesystem) (name : jsstring)
        (sd st : Stats.t) :
  plain_name name = true ->
  fs_find fs (memoriesDir dirname) = Some (Dir sd) ->
  fs_find fs (memoriesDir dirname ++ [name]) = Some (File st) ->
  valid_names dirname fs = true ->
  fst (delete dirname fs name) = mk_response 200 (Success MSG_DELETED)
  /\ Permutation
       (listed (api_memories unicode_toLowerCase toLocaleDateString dirname
                             (snd (delete dirname fs name))))
       (filter (fun m => negb (str_eqb (filename m) name))
          (listed (api_memories unicode_toLowerCase toLocaleDateString
                                dirname fs))).
Proof.
  intros Hp Hdir Hfile Hvalid.
  rewrite (delete_plain dirname fs name Hp), Hfile. cbn [fst snd].
  split; [reflexivity|].
  assert (fs_find (fs_remove fs (memoriesDir dirname ++ [name])) (memoriesDir dirname)
          = Some (Dir sd)) as Hdir'.
  { rewrite fs_find_remove_other; [assumption | apply path_snoc_neq]. }
  rewrite (api_memories_dir _ sd Hdir'), (api_memories_dir fs sd Hdir).
  unfold listed. cbn [payload].
  rewrite sort_by_perm, children_remove.
  rewrite (filter_perm _ _ _ (sort_by_perm by_created _)).
  rewrite <- (filter_Boolean_filter fs (fun n => negb (str_eqb n name))).
  replace (map (memory_of unicode_toLowerCase toLocaleDateString dirname
                  (fs_remove fs (memoriesDir dirname ++ [name])))
               (filter (fun n => negb (str_eqb n name))
                       (children fs (memoriesDir dirname))))
    with (map (memory_of unicode_toLowerCase toLocaleDateString dirname fs)
              (filter (fun n => negb (str_eqb n name))
                      (children fs (memoriesDir dirname)))); [reflexivity|].
  apply map_ext_in. intros n Hn. apply filter_In in Hn as [Hn Hne].
  unfold valid_names in Hvalid.
  pose proof (proj1 (forallb_forall _ _) Hvalid n Hn) as Hpn.
  rewrite !(memory_of_plain _ n Hpn).
  rewrite fs_find_remove_other; [reflexivity|].
  intros Heq. apply app_last_inj in Heq. subst n.
  now rewrite str_eqb_refl in Hne.
Qed.

End ListAfter.

(** ** Creating the storage directory *)

Lemma mkdir_from_spec (d : Stats.t) (rest : path) :
  forall (fs fs' : filesystem) (done : path),
    mkdir_from d fs done rest = Some fs' ->
    (forall q n, fs_find fs q = Some n -> fs_find fs' q = Some n)
    /\ (forall q, (List.length (done ++ rest) < List.length q)%nat ->
                  fs_find fs' q = fs_find fs q)
    /\ (rest <> [] -> exists st, fs_find fs' (done ++ rest) = Some (Dir st)).
Proof.
  induction rest as [|seg rest IH]; intros fs fs' done Hm; simpl in Hm.
  - injection Hm as <-. repeat split; auto. intros H. contradiction.
  - assert (done ++ seg :: rest = (done ++ [seg]) ++ rest) as Hsplit
        by now rewrite <- app_assoc.
    assert (forall fs0,
               mkdir_from d fs0 (done ++ [seg]) rest = Some fs' ->
               (exists st, fs_find fs0 (done ++ [seg]) = Some (Dir st)) ->
               (forall q n, fs_find fs0 q = Some n -> fs_find fs' q = Some n)
               /\ (forall q, (List.length (done ++ seg :: rest) < List.length q)%nat ->
                             fs_find fs' q = fs_find fs0 q)
               /\ exists st, fs_find fs' (done ++ seg :: rest) = Some (Dir st))
      as Hstep.
    { intros fs0 Hm0 [st0 Hseg]. apply IH in Hm0 as (Hold & Hlong & Htarget).
      rewrite Hsplit. repeat split; try assumption.
      destruct rest as [|s rest].
      - rewrite app_nil_r. exists st0. now apply Hold.
      - apply Htarget. discriminate. }
    destruct (fs_find fs (done ++ [seg])) as [[st|st|]|] eqn:Ef;
      try discriminate.
    + destruct (Hstep fs Hm) as (Hold & Hlong & Htarget); [now exists st|].
      repeat split; auto.
    + destruct (Hstep _ Hm) as (Hold & Hlong & Htarget).
      { exists d. now apply fs_find_app_absent. }
      repeat split.
      * intros q n Hq. apply Hold. now rewrite fs_find_app, Hq.
      * intros q Hq. rewrite (Hlong q Hq), fs_find_app.
        destruct (fs_find fs q); [reflexivity|].
        unfold fs_find. simpl.
        rewrite path_eqb_neq; [reflexivity|].
        intros <-. rewrite !length_app in Hq. simpl in Hq. lia.
      * intros _. exact Htarget.
Qed.

Lemma memoriesDir_snoc (dirname : path) :
  memoriesDir dirname = normalize dirname ++ [lit "anhkiniem"].
Proof. rewrite memoriesDir_normal. now apply normalize_snoc. Qed.

Section Startup.
Variable dirname : path.

(** The callback of [app.listen] leaves the filesystem alone when the
    storage directory is there; when it runs to its end on a storage path
    that no regular file occupies, the storage directory is a directory
    afterwards and everything found before is still found. *)
Theorem listen_callback_ensures_storage (dstats : Stats.t) (fs : filesystem) :
  (forall st, fs_find fs (memoriesDir dirname) = Some (Dir st) ->
              listen_callback dirname dstats fs = Some fs)
  /\ (forall fs',
        listen_callback dirname dstats fs = Some fs' ->
        storage_dir_usable dirname fs = true ->
        (exists st, fs_find fs' (memoriesDir dirname) = Some (Dir st))
        /\ forall q n, fs_find fs q = Some n -> fs_find fs' q = Some n).
Proof.
  unfold listen_callback, existsSync, storage_dir_usable. cbn [fst snd]. split.
  - intros st Hdir. now rewrite Hdir.
  - intros fs'.
    destruct (fs_find fs (memoriesDir dirname)) as [[st|st|]|] eqn:Ef;
      cbn [negb]; cbv iota; intros Hm Hu; try discriminate.
    + injection Hm as <-. split; [now exists st | auto].
    + unfold mkdirSync_recursive in Hm.
      apply mkdir_from_spec in Hm as (Hold & _ & Htarget).
      split; [|assumption]. apply Htarget.
      rewrite memoriesDir_snoc. intros H. now apply app_eq_nil in H as [_ H].
    + unfold mkdirSync_recursive in Hm.
      apply mkdir_from_spec in Hm as (Hold & _ & Htarget).
      split; [|assumption]. apply Htarget.
      rewrite memoriesDir_snoc. intros H. now apply app_eq_nil in H as [_ H].
Qed.


End Startup.

(** ** Type and title of listed files *)

(** Scanning [stem.ext] for any stem without separator: the state before
    the dot records whether the name starts with a dot. *)
Lemma ext_scan_last_dot (n : nat) (stem ext : jsstring) :
  stem <> [] -> ~ In CHAR_FORWARD_SLASH stem -> dotless ext ->
  ext_scan n (stem ++ CHAR_DOT :: ext)
  = mk_ext_state (Z.of_nat (n + List.length stem)) 0
                 (Z.of_nat (n + List.length stem + 1 + List.length ext))
                 false
                 (if N.eqb (hd 0%N stem) CHAR_DOT then 1 else -1)
                 false.
Proof.
  revert n. induction stem as [|c stem IH]; intros n Hne Hs He; [contradiction|].
  assert (N.eqb c CHAR_FORWARD_SLASH = false) as Hslash.
  { apply N.eqb_neq. intros ->. apply Hs. now left. }
  assert (~ In CHAR_FORWARD_SLASH stem) as Hs' by (intros H; apply Hs; now right).
  change (ext_scan n ((c :: stem) ++ CHAR_DOT :: ext))
    with (ext_step (ext_scan (S n) (stem ++ CHAR_DOT :: ext)) (Z.of_nat n, c)).
  destruct stem as [|c' stem].
  - change ([] ++ CHAR_DOT :: ext) with (CHAR_DOT :: ext).
    rewrite ext_scan_dot by assumption.
    unfold ext_step. simpl stopped. cbv iota. rewrite Hslash.
    cbn [end_ startDot preDotState hd].
    replace (Z.of_nat (S n + 1 + List.length ext) =? -1) with false
      by (symmetry; apply Z.eqb_neq; lia).
    replace (Z.of_nat (S n) =? -1) with false
      by (symmetry; apply Z.eqb_neq; lia).
    destruct (N.eqb c CHAR_DOT); simpl; f_equal; lia.
  - rewrite (IH (S n)) by (assumption || discriminate).
    unfold ext_step. simpl stopped. cbv iota. rewrite Hslash.
    cbn [end_ startDot preDotState hd].
    replace (Z.of_nat (S n + List.length (c' :: stem) + 1 + List.length ext) =? -1)
      with false by (symmetry; apply Z.eqb_neq; lia).
    replace (Z.of_nat (S n + List.length (c' :: stem)) =? -1) with false
      by (symmetry; apply Z.eqb_neq; lia).
    destruct (N.eqb c CHAR_DOT); destruct (N.eqb c' CHAR_DOT); simpl;
      f_equal; lia.
Qed.

(** [path.extname] of a name without separator is the text from its last
    dot on, when something precedes that dot and something follows it. *)
Lemma path_extname_last_dot (stem ext : jsstring) :
  stem <> [] -> ~ In CHAR_FORWARD_SLASH stem -> dotless ext -> ext <> [] ->
  path_extname (stem ++ CHAR_DOT :: ext) = CHAR_DOT :: ext.
Proof.
  intros Hne Hs He Hext. unfold path_extname, indexed.
  rewrite ext_scan_fold, ext_scan_last_dot by assumption.
  cbn [startDot end_ preDotState startPart].
  replace (Z.of_nat (0 + List.length stem) =? -1) with false
    by (symmetry; apply Z.eqb_neq; lia).
  replace (Z.of_nat (0 + List.length stem + 1 + List.length ext) =? -1)
    with false by (symmetry; apply Z.eqb_neq; lia).
  replace (Z.of_nat (0 + List.length stem)
           =? Z.of_nat (0 + List.length stem + 1 + List.length ext) - 1)
    with false.
  2:{ symmetry. apply Z.eqb_neq. destruct ext; [contradiction|]. simpl. lia. }
  assert (((if N.eqb (hd 0%N stem) CHAR_DOT then 1 else -1) =? 0) = false) as ->
      by now destruct (N.eqb (hd 0%N stem) CHAR_DOT).
  rewrite andb_false_r, andb_false_l. simpl orb. cbv iota.
  replace (Z.to_nat (Z.of_nat (0 + List.length stem + 1 + List.length ext)
                     - Z.of_nat (0 + List.length stem)))
    with (S (List.length ext)) by lia.
  rewrite Nat2Z.id. simpl Nat.add.
  rewrite skipn_app, skipn_all, Nat.sub_diag. simpl.
  now rewrite firstn_all.
Qed.

Lemma classes_disjoint (e : jsstring) :
  In e videoExtensions -> includes imageExtensions e = false.
Proof.
  unfold videoExtensions. simpl.
  intros H. repeat (destruct H as [<- | H]; [reflexivity|]). contradiction.
Qed.

Section TypeFacts.
Variable unicode_toLowerCase : jsstring -> jsstring.
Variable toLocaleDateString : Z -> jsstring.
Variable dirname : path.

(** The type of a listed file is decided by the text after the last dot of
    its name, compared without regard to ASCII letter case: an extension
    that lower-cases to one of jpg, jpeg, png, gif, webp, bmp, svg gives
    ['image'], one that lower-cases to mp4, avi, mov, wmv, flv, webm, mkv
    gives ['video']. *)
Theorem type_by_last_extension (fs : filesystem) (stem ext : jsstring)
        (m : memory) :
  stem <> [] -> ~ In CHAR_FORWARD_SLASH stem ->
  dotless ext -> ext <> [] ->
  forallb (fun c => (c <? 128)%N) ext = true ->
  memory_of unicode_toLowerCase toLocaleDateString dirname fs
            (stem ++ CHAR_DOT :: ext) = Some m ->
  type m = classify (map ascii_lower ext)
  /\ (In (map ascii_lower ext) imageExtensions -> type m = lit "image")
  /\ (In (map ascii_lower ext) videoExtensions -> type m = lit "video").
Proof.
  intros Hne Hs He Hext Hascii. unfold memory_of.
  destruct (statSync fs _) as [stats|]; [|discriminate].
  intros [= <-]. cbn [type].
  rewrite (path_extname_last_dot stem ext) by assumption.
  assert (toLowerCase unicode_toLowerCase (CHAR_DOT :: ext)
          = CHAR_DOT :: map ascii_lower ext) as ->.
  { unfold toLowerCase. simpl forallb. now rewrite Hascii. }
  change (substring1 (CHAR_DOT :: map ascii_lower ext)) with (map ascii_lower ext).
  split; [reflexivity|]. unfold classify. split; intros Hin.
  - now rewrite (proj2 (includes_In _ _) Hin).
  - rewrite (classes_disjoint _ Hin).
    now rewrite (proj2 (includes_In _ _) Hin).
Qed.

(** A file that the generator named is listed with the title ['Kỷ niệm ']
    followed by the sanitised client name up to its first dot, hyphens of
    the client name included. *)
Theorem title_of_generated_name (fs : filesystem) (now rnd : Z)
        (o : jsstring) (m : memory) :
  0 <= now -> 0 <= rnd ->
  memory_of unicode_toLowerCase toLocaleDateString dirname fs
            (storage_filename now rnd o) = Some m ->
  title m = TITLE_PREFIX ++ hd undefined_text (split CHAR_DOT (replace_ws o)).
Proof.
  intros Hnow Hrnd. unfold memory_of.
  destruct (statSync fs _) as [stats|]; [|discriminate].
  intros [= <-]. cbn [title].
  now rewrite recover_title_storage_filename.
Qed.

(** The listing answers 200 or 500, and 500 exactly when a regular file
    sits where the storage directory should be. *)
Theorem list_fails_iff (fs : filesystem) :
  (status (api_memories unicode_toLowerCase toLocaleDateString dirname fs) = 500
   <-> exists st, fs_find fs (memoriesDir dirname) = Some (File st))
  /\ (status (api_memories unicode_toLowerCase toLocaleDateString dirname fs) = 200
      \/ api_memories unicode_toLowerCase toLocaleDateString dirname fs
         = mk_response 500 (Failure MSG_LIST_FAILED)).
Proof.
  unfold api_memories, existsSync, readdirSync. cbn [fst snd].
  destruct (fs_find fs (memoriesDir dirname)) as [[st|st|]|]; cbn.
  - split; [|now right]. split; [now exists st | reflexivity].
  - split; [|now left].
    split; [discriminate | intros [st' H]; discriminate].
  - split; [|now left].
    split; [discriminate | intros [st' H]; discriminate].
  - split; [|now left].
    split; [discriminate | intros [st' H]; discriminate].
Qed.

End TypeFacts.

Section DeleterSound.
Variable dirname : path.

(** A success answer to a delete request means that a regular file was
    found under the path the name resolves to, that nothing is found there
    afterwards, and that this is the only change. *)
Theorem delete_success_sound (fs : filesystem) (name : jsstring) :
  status (fst (delete dirname fs name)) = 200 ->
  let target := fst (path_join dirname [lit "anhkiniem"; name]) in
  (exists st, fs_find fs target = Some (File st))
  /\ snd (delete dirname fs name) = fs_remove fs target
  /\ fs_find (snd (delete dirname fs name)) target = None.
Proof.
  unfold delete, existsSync, unlinkSync.
  destruct (path_join dirname [lit "anhkiniem"; name]) as [p slash].
  cbn [fst snd].
  destruct (fs_find fs p) as [[st|st|]|] eqn:Ef; cbn; try discriminate;
    destruct slash; cbn; try discriminate.
  intros _. split; [now exists st|]. split; [reflexivity|].
  apply fs_find_remove_same.
Qed.

End DeleterSound.

(** * The further properties at sample inputs *)

Lemma storage_filename_injective_witness :
  storage_filename 1700000000000 7 (lit "a b.png")
  = storage_filename 1700000000000 7 (lit "a  b.png")
  /\ replace_ws (lit "a b.png") = replace_ws (lit "a  b.png").
Proof.
  split; [reflexivity|].
  apply (storage_filename_injective 1700000000000 7 1700000000000 7
           (lit "a b.png") (lit "a  b.png")); try lia.
  reflexivity.
Defined.

Lemma title_of_foreign_name_witness :
  (hyphens (lit "album") <= 1)%nat
  /\ title (sample_item "album" "unknown" "" 4096 50) = TITLE_PREFIX.
Proof.
  split; [vm_compute; lia|].
  apply (title_of_foreign_name sample_toLowerCase sample_toLocaleDateString
           script_dir sample_fs (lit "album")).
  - vm_compute. lia.
  - vm_compute. reflexivity.
Defined.

Lemma title_has_no_dot_witness :
  ~ In CHAR_DOT (title (sample_item "1700000000300-8-c.txt" "unknown" "c" 30 300)).
Proof.
  apply (title_has_no_dot sample_toLowerCase sample_toLocaleDateString
           script_dir sample_fs (lit "1700000000300-8-c.txt")).
  vm_compute. reflexivity.
Defined.

Lemma listed_item_fields_witness :
  statSync sample_fs (path_join (memoriesDir script_dir)
                                [lit "1700000000200-7-b.mp4"])
  = Some (Stats.mk 20 200).
Proof.
  apply (listed_item_fields sample_toLowerCase sample_toLocaleDateString
           script_dir sample_fs
           (sample_item "1700000000200-7-b.mp4" "video" "b" 20 200)).
  vm_compute. tauto.
Defined.

Lemma type_without_extension_witness :
  type (sample_item "album" "unknown" "" 4096 50) = lit "unknown".
Proof.
  apply (type_without_extension sample_toLowerCase sample_toLocaleDateString
           script_dir sample_fs (lit "album")).
  - split; vm_compute; intuition discriminate.
  - vm_compute. reflexivity.
Defined.

Lemma delete_keeps_directories_witness :
  fs_find (snd (delete script_dir sample_fs (lit "."))) storage
  = Some (Dir dstats).
Proof.
  apply (delete_keeps_directories script_dir sample_fs (lit ".") storage dstats).
  reflexivity.
Defined.

Lemma delete_trailing_separator_witness :
  snd (delete script_dir sample_fs (lit "1700000000200-7-b.mp4/")) = sample_fs
  /\ (status (fst (delete script_dir sample_fs (lit "1700000000200-7-b.mp4/"))) = 404
      \/ status (fst (delete script_dir sample_fs (lit "1700000000200-7-b.mp4/"))) = 500).
Proof.
  apply (delete_trailing_separator script_dir sample_fs
           (lit "1700000000200-7-b.mp4/")).
  reflexivity.
Defined.

Lemma delete_parent_escape_witness :
  delete script_dir sample_fs (lit "../server.js")
  = (mk_response 200 (Success MSG_DELETED),
     fs_remove sample_fs (normalize script_dir ++ [lit "server.js"])).
Proof.
  apply (delete_parent_escape script_dir sample_fs (lit "server.js")
           (Stats.mk 9000 5)); reflexivity.
Defined.

Lemma upload_success_sound_witness :
  exists file,
    Some (sample_upload "Da Lat.png" "image/png" 1000) = Some file
    /\ reaches_filter file = true
    /\ In (mimetype file) accepted_types
    /\ (bytes_sent file <= 20 * 1024 * 1024)%N
    /\ mk_response 200 (Uploaded (lit "1700000000400-42-Da_Lat.png") MSG_UPLOADED 1000)
       = mk_response 200
           (Uploaded (storage_filename (now sample_env) (rnd sample_env)
                                       (originalname file))
                     MSG_UPLOADED (bytes_sent file))
    /\ exists stf,
         fs_find (sample_fs ++ [(storage ++ [lit "1700000000400-42-Da_Lat.png"],
                                 File (Stats.mk 1000 400))])
                 (fst (path_join (memoriesDir script_dir)
                         [storage_filename (now sample_env) (rnd sample_env)
                                           (originalname file)]))
         = Some (File stf)
         /\ Stats.size stf = bytes_sent file.
Proof.
  apply (upload_success_sound script_dir sample_env sample_fs _
           (Some (sample_upload "Da Lat.png" "image/png" 1000))).
  - vm_compute. reflexivity.
  - reflexivity.
Defined.



Lemma delete_then_list_witness :
  fst (delete script_dir sample_fs MY_PHOTO_PNG)
  = mk_response 200 (Success MSG_DELETED)
  /\ Permutation
       (listed (api_memories sample_toLowerCase sample_toLocaleDateString
                             script_dir
                             (snd (delete script_dir sample_fs MY_PHOTO_PNG))))
       (filter (fun m => negb (str_eqb (filename m) MY_PHOTO_PNG))
          (listed (api_memories sample_toLowerCase sample_toLocaleDateString
                                script_dir sample_fs))).
Proof.
  apply (delete_then_list sample_toLowerCase sample_toLocaleDateString
           script_dir sample_fs MY_PHOTO_PNG dstats (Stats.mk 10 100));
    reflexivity.
Defined.

Lemma listen_callback_ensures_storage_witness :
  listen_callback script_dir dstats no_storage_fs = Some empty_storage_fs
  /\ exists st, fs_find empty_storage_fs (memoriesDir script_dir) = Some (Dir st).
Proof.
  split; [reflexivity|].
  apply (proj2 (listen_callback_ensures_storage script_dir dstats no_storage_fs)
               empty_storage_fs); reflexivity.
Defined.


Lemma type_by_last_extension_witness :
  type (sample_item "IMG.0001.JPG" "image" "" 7 70) = lit "image".
Proof.
  apply (type_by_last_extension sample_toLowerCase sample_toLocaleDateString
           script_dir legacy_fs (lit "IMG.0001") (lit "JPG")).
  - discriminate.
  - vm_compute. intuition discriminate.
  - split; vm_compute; intuition discriminate.
  - discriminate.
  - reflexivity.
  - vm_compute. reflexivity.
  - vm_compute. tauto.
Defined.

Lemma title_of_generated_name_witness :
  title (sample_item "1700000000000-123456789-My_Photo.png" "image" "My_Photo" 10 100)
  = TITLE_PREFIX ++ hd undefined_text (split CHAR_DOT (replace_ws (lit "My Photo.png"))).
Proof.
  apply (title_of_generated_name sample_toLowerCase sample_toLocaleDateString
           script_dir sample_fs 1700000000000 123456789 (lit "My Photo.png"));
    try lia.
  vm_compute. reflexivity.
Defined.

Lemma delete_success_sound_witness :
  (exists st,
      fs_find sample_fs
              (fst (path_join script_dir [lit "anhkiniem"; MY_PHOTO_PNG]))
      = Some (File st))
  /\ snd (delete script_dir sample_fs MY_PHOTO_PNG)
     = fs_remove sample_fs
                 (fst (path_join script_dir [lit "anhkiniem"; MY_PHOTO_PNG]))
  /\ fs_find (snd (delete script_dir sample_fs MY_PHOTO_PNG))
             (fst (path_join script_dir [lit "anhkiniem"; MY_PHOTO_PNG]))
     = None.
Proof.
  apply (delete_success_sound script_dir sample_fs MY_PHOTO_PNG).
  reflexivity.
Defined.
